(** * Effective Modern C++ sample code: a shallow embedding

    The repository is a flat collection of example programs, one per
    "Item".  This development embeds the parts of the examples that carry
    behaviour (smart-pointer ownership in item20, the thread wrapper
    [ThreadRAII] and [doWork] of item37 and its copies, the polling loop
    of item36, the factory of item18, the flag protocol between the
    threads of item39, and the [main] functions with what they write to
    [std::cout]) and proves the properties stated about them.

    Conventions.
    - A C++ function with side effects is a state transformer
      [prog S A := S -> outcome A * S].
    - [outcome] distinguishes normal return, a thrown exception, a call of
      [std::terminate] and undefined behaviour.
    - The operations of the C++ standard library used by the examples
      ([std::shared_ptr], [std::weak_ptr], [std::thread], [std::future],
      [std::unique_ptr], [std::atomic]) are modelled after the contract the
      C++ standard gives them. *)

From Stdlib Require Import ZArith String Ascii List Bool Lia DecimalString Sorted.
From Stdlib Require PrimFloat.
From stdpp Require Import gmap strings.
From Equations Require Import Equations.

Import ListNotations.
Local Open Scope Z_scope.

(* ===================================================================== *)
(** ** Outcomes and the program monad *)
(* ===================================================================== *)

Module Cxx.

(** Exceptions of the standard library that the examples can meet. *)
Inductive exn : Type :=
| bad_weak_ptr
| system_error.

Inductive outcome (A : Type) : Type :=
| Normal (a : A)       (* the statement completed, with value [a] *)
| Throws (e : exn)     (* an exception is propagating *)
| Terminated           (* std::terminate was called *)
| Undefined.           (* the behaviour is undefined *)

Arguments Normal {A} a.
Arguments Throws {A} e.
Arguments Terminated {A}.
Arguments Undefined {A}.

Definition prog (S A : Type) : Type := S -> outcome A * S.

Definition ret {S A} (a : A) : prog S A := fun s => (Normal a, s).

Definition bind {S A B} (m : prog S A) (k : A -> prog S B) : prog S B :=
  fun s =>
    match m s with
    | (Normal a, s') => k a s'
    | (Throws e, s') => (Throws e, s')
    | (Terminated, s') => (Terminated, s')
    | (Undefined, s') => (Undefined, s')
    end.

Definition throw {S A} (e : exn) : prog S A := fun s => (Throws e, s).

Definition terminate {S A} : prog S A := fun s => (Terminated, s).

(** [try { body } catch (const E& e) { handler }] for the exception
    [caught]; any other exception keeps propagating. *)
Definition try_catch {S A} (body : prog S A) (caught : exn)
           (handler : prog S A) : prog S A :=
  fun s =>
    match body s with
    | (Throws e, s') =>
        match e, caught with
        | bad_weak_ptr, bad_weak_ptr => handler s'
        | system_error, system_error => handler s'
        | _, _ => (Throws e, s')
        end
    | r => r
    end.

Definition modify {S} (f : S -> S) : prog S unit := fun s => (Normal tt, f s).

(** The line feed written by ['\n'] and ["\n"]. *)
Definition nl : string := String (ascii_of_nat 10) EmptyString.

(** A process state: the private store of the program and the text it
    has written to standard output so far. *)
Record world (H : Type) : Type := mkWorld { store : H; console : string }.
Arguments mkWorld {H} store console.
Arguments store {H} w.
Arguments console {H} w.

(** [std::cout << s]. *)
Definition cout {H} (s : string) : prog (world H) unit :=
  fun w => (Normal tt, mkWorld (store w) (console w +:+ s)).

(** Run a computation on the store, leaving the console alone. *)
Definition lift {H A} (m : prog H A) : prog (world H) A :=
  fun w =>
    match m (store w) with
    | (r, h') => (r, mkWorld h' (console w))
    end.

End Cxx.

Declare Scope cxx_scope.
Delimit Scope cxx_scope with cxx.
Notation "x <- m ;; k" := (Cxx.bind m (fun x => k))
  (at level 100, m at next level, right associativity) : cxx_scope.
Notation "m ;; k" := (Cxx.bind m (fun _ => k))
  (at level 100, right associativity) : cxx_scope.

(* ===================================================================== *)
(** ** <memory>: std::shared_ptr and std::weak_ptr *)
(* ===================================================================== *)

Module StdMemory.
Import Cxx.

Section ControlBlocks.
(** The type of the managed object. *)
Variable T : Type.

(** A control block: the number of owning [shared_ptr]s, the number
    of observing [weak_ptr]s, and the managed object while it lives. *)
Record ctrl : Type := mkCtrl {
  use_count : nat;
  weak_count : nat;
  object : option T
}.

(** A [shared_ptr] or a [weak_ptr] is null/empty or refers to a
    control block. *)
Definition shared_ptr : Type := option nat.
Definition weak_ptr : Type := option nat.

Definition nullptr : shared_ptr := None.

(** The block is deallocated when neither owners nor observers
    remain. *)
Definition settle (b : nat) (c : ctrl) (h : gmap nat ctrl) : gmap nat ctrl :=
  match use_count c, weak_count c with
  | O, O => delete b h
  | _, _ => <[b := c]> h
  end.

(** [std::make_shared<T>(v)]: a fresh control block with one owner. *)
Definition make_shared (v : T) : prog (gmap nat ctrl) shared_ptr :=
  fun h =>
    let b := fresh (dom h) in
    (Normal (Some b), <[b := mkCtrl 1 0 (Some v)]> h).

(** Giving up one ownership: the destructor of a [shared_ptr], and
    the first half of an assignment to it.  The object is destroyed
    when the last owner goes. *)
Definition release (sp : shared_ptr) : prog (gmap nat ctrl) unit :=
  fun h =>
    match sp with
    | None => (Normal tt, h)
    | Some b =>
        match h !! b with
        | None => (Undefined, h)
        | Some c =>
            match use_count c with
            | O => (Undefined, h)
            | S O => (Normal tt, settle b (mkCtrl 0 (weak_count c) None) h)
            | S n => (Normal tt, <[b := mkCtrl n (weak_count c) (object c)]> h)
            end
        end
    end.

(** [sp = nullptr]. *)
Definition assign_nullptr (sp : shared_ptr) : prog (gmap nat ctrl) shared_ptr :=
  (release sp ;; ret nullptr)%cxx.

(** [std::weak_ptr<T> wp(sp)]: observes the object of [sp]; the use
    count is not changed. *)
Definition weak_from_shared (sp : shared_ptr) : prog (gmap nat ctrl) weak_ptr :=
  fun h =>
    match sp with
    | None => (Normal None, h)
    | Some b =>
        match h !! b with
        | None => (Undefined, h)
        | Some c =>
            (Normal (Some b),
             <[b := mkCtrl (use_count c) (S (weak_count c)) (object c)]> h)
        end
    end.

(** [wp.use_count()]. *)
Definition weak_use_count (wp : weak_ptr) (h : gmap nat ctrl) : nat :=
  match wp with
  | None => O
  | Some b =>
      match h !! b with
      | None => O
      | Some c => use_count c
      end
  end.

(** [wp.expired()] is [use_count() == 0]. *)
Definition expired (wp : weak_ptr) : prog (gmap nat ctrl) bool :=
  fun h => (Normal (Nat.eqb (weak_use_count wp h) 0), h).

(** Taking one more ownership of the block [b]. *)
Definition acquire (b : nat) (h : gmap nat ctrl) : gmap nat ctrl :=
  match h !! b with
  | None => h
  | Some c => <[b := mkCtrl (S (use_count c)) (weak_count c) (object c)]> h
  end.

(** [wp.lock()]: null if [wp] has expired, otherwise a new owner. *)
Definition lock (wp : weak_ptr) : prog (gmap nat ctrl) shared_ptr :=
  fun h =>
    if Nat.eqb (weak_use_count wp h) 0 then (Normal nullptr, h)
    else
      match wp with
      | None => (Normal nullptr, h)
      | Some b => (Normal (Some b), acquire b h)
      end.

(** [std::shared_ptr<T> sp(wp)]: throws [std::bad_weak_ptr] if [wp]
    has expired, otherwise a new owner. *)
Definition shared_from_weak (wp : weak_ptr) : prog (gmap nat ctrl) shared_ptr :=
  fun h =>
    if Nat.eqb (weak_use_count wp h) 0 then (Throws bad_weak_ptr, h)
    else
      match wp with
      | None => (Throws bad_weak_ptr, h)
      | Some b => (Normal (Some b), acquire b h)
      end.

(** The destructor of a [weak_ptr]. *)
Definition weak_release (wp : weak_ptr) : prog (gmap nat ctrl) unit :=
  fun h =>
    match wp with
    | None => (Normal tt, h)
    | Some b =>
        match h !! b with
        | None => (Undefined, h)
        | Some c =>
            match weak_count c with
            | O => (Undefined, h)
            | S n => (Normal tt, settle b (mkCtrl (use_count c) n (object c)) h)
            end
        end
    end.

End ControlBlocks.

Arguments mkCtrl {T} use_count weak_count object.
Arguments use_count {T} c.
Arguments weak_count {T} c.
Arguments object {T} c.
Arguments nullptr : clear implicits.
Arguments make_shared {T} v h.
Arguments release {T} sp h.
Arguments assign_nullptr {T} sp.
Arguments weak_from_shared {T} sp h.
Arguments weak_use_count {T} wp h.
Arguments expired {T} wp h.
Arguments lock {T} wp h.
Arguments shared_from_weak {T} wp h.
Arguments weak_release {T} wp h.

End StdMemory.

(* ===================================================================== *)
(** ** item20.cxx *)
(* ===================================================================== *)

Module Item20.
Import Cxx StdMemory.

(** [class Widget { public: int x = 0; };] *)
Record Widget : Type := mkWidget { x : Z }.
Definition Widget_default : Widget := mkWidget 0.

Abbreviation heap := (gmap nat (ctrl Widget)).

(** The heap that lines 227-232 leave behind when started in [h]: the
    Widget is gone, and its control block stays for the sake of the
    one observer. *)
Definition dangling (h : heap) : heap :=
  <[fresh (dom h) := mkCtrl 0 1 None]> h.

Section Main.
(** The text returned by [std::bad_weak_ptr::what()]; the standard
    leaves it to the implementation. *)
Variable bad_weak_ptr_what : string.

(** Lines 227-232: [spw], [wpw], and [spw = nullptr]. *)
Definition main_setup : prog (world heap) (shared_ptr * weak_ptr) :=
  (spw <- lift (make_shared Widget_default) ;;
   wpw <- lift (weak_from_shared spw) ;;
   spw <- lift (assign_nullptr spw) ;;
   ret (spw, wpw))%cxx.

(** Lines 234-236. *)
Definition main_report (wpw : weak_ptr) : prog (world heap) unit :=
  (e <- lift (expired wpw) ;;
   if (e : bool) then (cout "wpw has expired" ;; cout nl) else ret tt)%cxx.

(** Lines 242-244: [spw1] and [spw2]. *)
Definition main_locks (wpw : weak_ptr) : prog (world heap) (shared_ptr * shared_ptr) :=
  (spw1 <- lift (lock wpw) ;;
   spw2 <- lift (lock wpw) ;;
   ret (spw1, spw2))%cxx.

(** Lines 248-252: [spw3] lives until the end of the try block. *)
Definition main_try (wpw : weak_ptr) : prog (world heap) unit :=
  try_catch
    (spw3 <- lift (shared_from_weak wpw) ;;
     lift (release spw3))%cxx
    bad_weak_ptr
    (cout bad_weak_ptr_what ;; cout nl)%cxx.

(** [main]: the four parts, then the destructors of the locals in
    reverse order of declaration, then the value of [return 0]. *)
Definition main : prog (world heap) Z :=
  (p <- main_setup ;;
   main_report (snd p) ;;
   q <- main_locks (snd p) ;;
   main_try (snd p) ;;
   lift (release (snd q)) ;;
   lift (release (fst q)) ;;
   lift (weak_release (snd p)) ;;
   lift (release (fst p)) ;;
   ret 0)%cxx.

End Main.

End Item20.

(* ===================================================================== *)
(** ** <thread>: std::thread *)
(* ===================================================================== *)

Module StdThread.
Import Cxx.

Section Threads.
(** The memory that the threads of the program share. *)
Variable Mem : Type.

(** A thread of execution runs a function over the shared memory.
    It has been started and is still owned by a [std::thread]
    object, or it has been joined, or it has been detached. *)
Inductive execution : Type :=
| Started (body : Mem -> outcome Mem)
| Joined
| Detached (body : Mem -> outcome Mem).

Record sys : Type := mkSys { mem : Mem; threads : gmap nat execution }.

(** A [std::thread] object: it represents a thread of execution, or
    none (default constructed, moved from, joined or detached). *)
Record thread : Type := mkThread { handle : option nat }.

Definition no_thread : thread := mkThread None.

(** [t.joinable()]. *)
Definition joinable (t : thread) : bool :=
  match handle t with
  | Some _ => true
  | None => false
  end.

(** [std::thread(f)]: starts a new thread of execution running [f]. *)
Definition spawn (f : Mem -> outcome Mem) : prog sys thread :=
  fun s =>
    let i := fresh (dom (threads s)) in
    (Normal (mkThread (Some i)), mkSys (mem s) (<[i := Started f]> (threads s))).

(** The move constructor: the new object takes over the thread of
    execution, the source represents none afterwards.  The result is
    the pair (new object, source afterwards). *)
Definition thread_move (src : thread) : thread * thread :=
  (mkThread (handle src), no_thread).

(** The move assignment [dst = std::move(src)]: calls
    [std::terminate] if [dst] is joinable.  The result is the pair
    (dst afterwards, src afterwards). *)
Definition thread_move_assign (dst src : thread) : prog sys (thread * thread) :=
  if joinable dst then terminate else ret (thread_move src).

(** What the caller of [join] observes once the thread function has
    run to its end.  An exception that leaves a thread function ends
    the process with [std::terminate]. *)
Definition await (i : nat) (body : Mem -> outcome Mem) : prog sys thread :=
  fun s =>
    match body (mem s) with
    | Normal m => (Normal no_thread, mkSys m (<[i := Joined]> (threads s)))
    | Throws _ => (Terminated, s)
    | Terminated => (Terminated, s)
    | Undefined => (Undefined, s)
    end.

(** [t.join()]: blocks until the thread of execution has finished;
    [t] is not joinable afterwards.  Throws [std::system_error] if
    [t] is not joinable.  The result is [t] afterwards. *)
Definition join (t : thread) : prog sys thread :=
  fun s =>
    match handle t with
    | None => (Throws system_error, s)
    | Some i =>
        match threads s !! i with
        | Some (Started body) => await i body s
        | _ => (Undefined, s)
        end
    end.

(** [t.detach()]: the thread of execution continues on its own; [t]
    is not joinable afterwards.  Throws [std::system_error] if [t]
    is not joinable. *)
Definition detach (t : thread) : prog sys thread :=
  fun s =>
    match handle t with
    | None => (Throws system_error, s)
    | Some i =>
        match threads s !! i with
        | Some (Started body) =>
            (Normal no_thread, mkSys (mem s) (<[i := Detached body]> (threads s)))
        | _ => (Undefined, s)
        end
    end.

(** [~thread()]: calls [std::terminate] if the object is joinable. *)
Definition thread_dtor (t : thread) : prog sys unit :=
  if joinable t then terminate else ret tt.

(** A destructor is [noexcept]: an exception that leaves its body
    ends the process with [std::terminate]. *)
Definition noexcept {A} (m : prog sys A) : prog sys A :=
  fun s =>
    match m s with
    | (Throws _, s') => (Terminated, s')
    | r => r
    end.

(** A joinable [std::thread] object represents a thread of execution
    that has been started and neither joined nor detached. *)
Definition represents (s : sys) (t : thread) : Prop :=
  match handle t with
  | None => True
  | Some i => exists body, threads s !! i = Some (Started body)
  end.

(** The thread function of [t] runs to its end from the current
    memory without an exception and without undefined behaviour. *)
Definition completes (s : sys) (t : thread) : Prop :=
  match handle t with
  | None => True
  | Some i =>
      forall body, threads s !! i = Some (Started body) ->
                   exists m, body (mem s) = Normal m
  end.

End Threads.

Arguments Started {Mem} body.
Arguments Joined {Mem}.
Arguments Detached {Mem} body.
Arguments mkSys {Mem} mem threads.
Arguments mem {Mem} s.
Arguments threads {Mem} s.
Arguments spawn {Mem} f s.
Arguments thread_move_assign {Mem} dst src s.
Arguments await {Mem} i body s.
Arguments join {Mem} t s.
Arguments detach {Mem} t s.
Arguments thread_dtor {Mem} t s.
Arguments noexcept {Mem A} m s.
Arguments represents {Mem} s t.
Arguments completes {Mem} s t.

End StdThread.

(* ===================================================================== *)
(** ** item37.cxx *)
(* ===================================================================== *)

Module Item37.
Import Cxx.

(** [constexpr auto tenMillion = 10'000'000;] *)
Definition tenMillion : Z := 10000000.

(** The largest value of [int] (32 bits). *)
Definition INT_MAX : Z := 2147483647.

(** [enum class DtorAction { join, detach };] *)
Inductive DtorAction : Type := join | detach.

(** [class ThreadRAII]: the data members, in declaration order. *)
Record ThreadRAII : Type := mkThreadRAII {
  action : DtorAction;
  t : StdThread.thread
}.

(** [ThreadRAII(std::thread&& t, DtorAction a) : action(a), t(std::move(t)) {}].
    The result is the new object and the argument thread afterwards. *)
Definition ThreadRAII_ctor (t0 : StdThread.thread) (a : DtorAction)
  : ThreadRAII * StdThread.thread :=
  let p := StdThread.thread_move t0 in
  (mkThreadRAII a (fst p), snd p).

(** [std::thread& get() { return t; }] *)
Definition get (r : ThreadRAII) : StdThread.thread := t r.

(** Writing through the reference returned by [get]. *)
Definition set (r : ThreadRAII) (t' : StdThread.thread) : ThreadRAII :=
  mkThreadRAII (action r) t'.

Section WithMem.
Variable Mem : Type.

(** The body of [~ThreadRAII()]; the result is the object as the
    body leaves it. *)
Definition dtor_body (r : ThreadRAII) : prog (StdThread.sys Mem) ThreadRAII :=
  if StdThread.joinable (t r) then
    match action r with
    | join => (t' <- StdThread.join (t r) ;; ret (set r t'))%cxx
    | detach => (t' <- StdThread.detach (t r) ;; ret (set r t'))%cxx
    end
  else ret r.

(** Destruction of a [ThreadRAII]: the destructor body, then the
    destructors of the members ([t] is the one that can do
    something). *)
Definition ThreadRAII_dtor (r : ThreadRAII) : prog (StdThread.sys Mem) unit :=
  StdThread.noexcept
    (r' <- dtor_body r ;; StdThread.thread_dtor (t r'))%cxx.

(** [ThreadRAII(ThreadRAII&&) = default;] moves member by member.
    The result is the new object and the source afterwards. *)
Definition ThreadRAII_move_ctor (src : ThreadRAII) : ThreadRAII * ThreadRAII :=
  let p := StdThread.thread_move (t src) in
  (mkThreadRAII (action src) (fst p), mkThreadRAII (action src) (snd p)).

(** [ThreadRAII& operator=(ThreadRAII&&) = default;] assigns member
    by member.  The result is (target afterwards, source afterwards). *)
Definition ThreadRAII_move_assign (dst src : ThreadRAII)
  : prog (StdThread.sys Mem) (ThreadRAII * ThreadRAII) :=
  (p <- StdThread.thread_move_assign (t dst) (t src) ;;
   ret (mkThreadRAII (action src) (fst p), mkThreadRAII (action src) (snd p)))%cxx.

End WithMem.

Arguments dtor_body {Mem} r s.
Arguments ThreadRAII_dtor {Mem} r s.
Arguments ThreadRAII_move_assign {Mem} dst src s.

(** The loop of the worker lambda,
    [for (auto i = 0; i <= maxVal; ++i) { if (filter(i)) goodVals.push_back(i); }],
    entered with the current [i].  [++i] on the largest [int] is a
    signed overflow, which is undefined behaviour.  The recursion is
    on the number of values from [i] up to [maxVal]. *)
Equations? worker_loop (filter : Z -> bool) (maxVal i : Z) (goodVals : list Z)
  : outcome (list Z) by wf (Z.to_nat (maxVal + 1 - i)) lt :=
  worker_loop filter maxVal i goodVals with Z_le_gt_dec i maxVal := {
    | right _ => Normal goodVals
    | left _ with Z_lt_ge_dec i INT_MAX := {
        | left _ =>
            worker_loop filter maxVal (i + 1)
                        (if filter i then goodVals ++ [i] else goodVals)
        | right _ => Undefined } }.
Proof. lia. Qed.

(** The lambda [[&filter, maxVal, &goodVals] { ... }] as a function of
    the vector it captures by reference. *)
Definition worker (filter : Z -> bool) (maxVal : Z) : list Z -> outcome (list Z) :=
  fun goodVals => worker_loop filter maxVal 0 goodVals.

(** [doWork] up to and including the evaluation of the operand of its
    [return]: the shared memory is the local vector [goodVals]; the
    result is the value to return and the local [t]. *)
Definition doWork_body (filter : Z -> bool) (maxVal : Z)
  : prog (StdThread.sys (list Z)) (bool * ThreadRAII) :=
  (modify (fun s => StdThread.mkSys [] (StdThread.threads s)) ;;
   tmp <- StdThread.spawn (worker filter maxVal) ;;
   let p := ThreadRAII_ctor tmp join in
   StdThread.thread_dtor (snd p) ;;
   if true then
     (t' <- StdThread.join (get (fst p)) ;;
      ret (true, set (fst p) t'))
   else
     ret (false, fst p))%cxx.

(** [bool doWork(std::function<bool(int)> filter, int maxVal)]: the
    body, then the destructor of the local [t]. *)
Definition doWork (filter : Z -> bool) (maxVal : Z)
  : prog (StdThread.sys (list Z)) bool :=
  (p <- doWork_body filter maxVal ;;
   ThreadRAII_dtor (snd p) ;;
   ret (fst p))%cxx.

(** A call that leaves [maxVal] to its default argument. *)
Definition doWork_default (filter : Z -> bool) : prog (StdThread.sys (list Z)) bool :=
  doWork filter tenMillion.

(** [int main() { return 0; }] *)
Definition main : prog (world unit) Z := ret 0.

End Item37.

(* ===================================================================== *)
(** ** item39.cxx *)
(* ===================================================================== *)

(** [namespace item37] as item39.cxx repeats it (lines 80-135); only the
    class [ThreadRAII] is embedded here. *)
Module Item39.
Import Cxx.

(** [enum class DtorAction { join, detach };] *)
Inductive DtorAction : Type := join | detach.

Record ThreadRAII : Type := mkThreadRAII {
  action : DtorAction;
  t : StdThread.thread
}.

(** [ThreadRAII(std::thread&& t, DtorAction a) : action(a), t(std::move(t)) {}] *)
Definition ThreadRAII_ctor (t0 : StdThread.thread) (a : DtorAction)
  : ThreadRAII * StdThread.thread :=
  let p := StdThread.thread_move t0 in
  (mkThreadRAII a (fst p), snd p).

(** [std::thread& get() { return t; }] *)
Definition get (r : ThreadRAII) : StdThread.thread := t r.

Definition set (r : ThreadRAII) (t' : StdThread.thread) : ThreadRAII :=
  mkThreadRAII (action r) t'.

Section WithMem.
Variable Mem : Type.

(** The body of [~ThreadRAII()]. *)
Definition dtor_body (r : ThreadRAII) : prog (StdThread.sys Mem) ThreadRAII :=
  if StdThread.joinable (t r) then
    match action r with
    | join => (t' <- StdThread.join (t r) ;; ret (set r t'))%cxx
    | detach => (t' <- StdThread.detach (t r) ;; ret (set r t'))%cxx
    end
  else ret r.

Definition ThreadRAII_dtor (r : ThreadRAII) : prog (StdThread.sys Mem) unit :=
  StdThread.noexcept
    (r' <- dtor_body r ;; StdThread.thread_dtor (t r'))%cxx.

(** [ThreadRAII(ThreadRAII&&) = default;] *)
Definition ThreadRAII_move_ctor (src : ThreadRAII) : ThreadRAII * ThreadRAII :=
  let p := StdThread.thread_move (t src) in
  (mkThreadRAII (action src) (fst p), mkThreadRAII (action src) (snd p)).

(** [ThreadRAII& operator=(ThreadRAII&&) = default;] *)
Definition ThreadRAII_move_assign (dst src : ThreadRAII)
  : prog (StdThread.sys Mem) (ThreadRAII * ThreadRAII) :=
  (p <- StdThread.thread_move_assign (t dst) (t src) ;;
   ret (mkThreadRAII (action src) (fst p), mkThreadRAII (action src) (snd p)))%cxx.

End WithMem.

Arguments dtor_body {Mem} r s.
Arguments ThreadRAII_dtor {Mem} r s.
Arguments ThreadRAII_move_assign {Mem} dst src s.

End Item39.

(* ===================================================================== *)
(** ** item40.cxx *)
(* ===================================================================== *)

(** [namespace item37] as item40.cxx repeats it (lines 73-128), and the
    [main] of item40.cxx. *)
Module Item40.
Import Cxx.

(** [enum class DtorAction { join, detach };] *)
Inductive DtorAction : Type := join | detach.

Record ThreadRAII : Type := mkThreadRAII {
  action : DtorAction;
  t : StdThread.thread
}.

(** [ThreadRAII(std::thread&& t, DtorAction a) : action(a), t(std::move(t)) {}] *)
Definition ThreadRAII_ctor (t0 : StdThread.thread) (a : DtorAction)
  : ThreadRAII * StdThread.thread :=
  let p := StdThread.thread_move t0 in
  (mkThreadRAII a (fst p), snd p).

(** [std::thread& get() { return t; }] *)
Definition get (r : ThreadRAII) : StdThread.thread := t r.

Definition set (r : ThreadRAII) (t' : StdThread.thread) : ThreadRAII :=
  mkThreadRAII (action r) t'.

Section WithMem.
Variable Mem : Type.

(** The body of [~ThreadRAII()]. *)
Definition dtor_body (r : ThreadRAII) : prog (StdThread.sys Mem) ThreadRAII :=
  if StdThread.joinable (t r) then
    match action r with
    | join => (t' <- StdThread.join (t r) ;; ret (set r t'))%cxx
    | detach => (t' <- StdThread.detach (t r) ;; ret (set r t'))%cxx
    end
  else ret r.

Definition ThreadRAII_dtor (r : ThreadRAII) : prog (StdThread.sys Mem) unit :=
  StdThread.noexcept
    (r' <- dtor_body r ;; StdThread.thread_dtor (t r'))%cxx.

(** [ThreadRAII(ThreadRAII&&) = default;] *)
Definition ThreadRAII_move_ctor (src : ThreadRAII) : ThreadRAII * ThreadRAII :=
  let p := StdThread.thread_move (t src) in
  (mkThreadRAII (action src) (fst p), mkThreadRAII (action src) (snd p)).

(** [ThreadRAII& operator=(ThreadRAII&&) = default;] *)
Definition ThreadRAII_move_assign (dst src : ThreadRAII)
  : prog (StdThread.sys Mem) (ThreadRAII * ThreadRAII) :=
  (p <- StdThread.thread_move_assign (t dst) (t src) ;;
   ret (mkThreadRAII (action src) (fst p), mkThreadRAII (action src) (snd p)))%cxx.

End WithMem.

Arguments dtor_body {Mem} r s.
Arguments ThreadRAII_dtor {Mem} r s.
Arguments ThreadRAII_move_assign {Mem} dst src s.

(** *** [main] of item40.cxx *)

Definition INT_MIN : Z := -2147483648.
Definition INT_MAX : Z := 2147483647.

(** Arithmetic on [std::atomic<int>] wraps around (two's complement). *)
Definition wrap (z : Z) : Z := (z - INT_MIN) mod 4294967296 + INT_MIN.

(** [++vi] and [--vi] on an [int]: overflow is undefined behaviour. *)
Definition checked {S} (z : Z) : prog S Z :=
  fun s => if (INT_MIN <=? z) && (z <=? INT_MAX) then (Normal z, s) else (Undefined, s).

(** [std::cout << n] for an [int]: its decimal digits. *)
Definition show_int (z : Z) : string :=
  NilZero.string_of_int (Z.to_int z).

Definition main : prog (world unit) Z :=
  (let ai := 0 in                    (* std::atomic<int> ai(0); *)
   let ai := 10 in                   (* ai = 10; *)
   cout (show_int ai) ;;             (* std::cout << ai; *)
   let ai := wrap (ai + 1) in        (* ++ai; *)
   let ai := wrap (ai - 1) in        (* --ai; *)
   let vi := 0 in                    (* volatile int vi(0); *)
   let vi := 10 in                   (* vi = 10; *)
   cout (show_int vi) ;;             (* std::cout << vi; *)
   vi <- checked (vi + 1) ;;         (* ++vi; *)
   vi <- checked (vi - 1) ;;         (* --vi; *)
   let x := 1 in                     (* int x = 1; *)
   let y := x in                     (* auto y = x; *)
   let y := x in                     (* y = x; *)
   ret 0)%cxx.

End Item40.

(* ===================================================================== *)
(** ** item36.cxx *)
(* ===================================================================== *)

Module Item36.

(** [std::launch]. *)
Module launch.
Inductive t : Type := async | deferred.
End launch.

(** [std::future_status]. *)
Module future_status.
Inductive t : Type := ready | timeout | deferred.

Definition eqb (a b : t) : bool :=
  match a, b with
  | ready, ready | timeout, timeout | deferred, deferred => true
  | _, _ => false
  end.
End future_status.

(** The shared state behind the future that [std::async] returns: how
    the task was launched and, for a task on its own thread, the time
    (in milliseconds) at which the task will have returned. *)
Record future : Type := mkFuture { policy : launch.t; finish : Z }.

(** What the calling thread can observe: the clock (milliseconds) and
    the [wait_for] calls made so far, each with its timeout and its
    result, oldest first. *)
Record env : Type := mkEnv {
  now : Z;
  polls : list (Z * future_status.t)
}.

(** [void f() { std::this_thread::sleep_for(1s); }] started at time
    [start]: it returns one second later, or [late] milliseconds after
    that ([sleep_for] blocks for at least the given time). *)
Definition f (start late : Z) : Z := start + 1000 + late.

(** [std::async(f)] with the default launch policy: the implementation
    chooses between [std::launch::async] and [std::launch::deferred].
    With [async], [f] starts on a new thread [latency] milliseconds
    from now. *)
Definition std_async (choice : launch.t) (latency late : Z) (e : env) : future :=
  mkFuture choice (f (now e + latency) late).

(** [fut.wait_for(d)]: a deferred task is reported at once and is not
    run; otherwise the call blocks until the task has returned or [d]
    milliseconds have passed, whichever comes first. *)
Definition wait_for (fut : future) (d : Z) (e : env) : future_status.t * env :=
  match policy fut with
  | launch.deferred =>
      (future_status.deferred, mkEnv (now e) (polls e ++ [(d, future_status.deferred)]))
  | launch.async =>
      if finish fut <=? now e + d then
        (future_status.ready,
         mkEnv (Z.max (now e) (finish fut)) (polls e ++ [(d, future_status.ready)]))
      else
        (future_status.timeout,
         mkEnv (now e + d) (polls e ++ [(d, future_status.timeout)]))
  end.

(** [while (fut.wait_for(100ms) != std::future_status::ready) { }]
    (line 92); [None] when [fuel] iterations were not enough. *)
Fixpoint poll_until_ready (fuel : nat) (fut : future) (e : env) : option env :=
  match fuel with
  | O => None
  | S fuel' =>
      let r := wait_for fut 100 e in
      if negb (future_status.eqb (fst r) future_status.ready)
      then poll_until_ready fuel' fut (snd r)
      else Some (snd r)
  end.

(** The destructor of the future returned by [std::async]: it blocks
    until a task launched on its own thread has returned; a deferred
    task that was never waited for is dropped. *)
Definition future_dtor (fut : future) (e : env) : env :=
  match policy fut with
  | launch.deferred => e
  | launch.async => mkEnv (Z.max (now e) (finish fut)) (polls e)
  end.

(** [main] (lines 75-101): its return value and the final
    environment. *)
Definition main (fuel : nat) (choice : launch.t) (latency late : Z) (e : env)
  : option (Z * env) :=
  let fut := std_async choice latency late e in
  let r := wait_for fut 0 e in
  match
    (if future_status.eqb (fst r) future_status.deferred
     then Some (snd r)
     else poll_until_ready fuel fut (snd r))
  with
  | None => None
  | Some e' => Some (0, future_dtor fut e')
  end.


End Item36.

(* ===================================================================== *)
(** ** item18.cxx *)
(* ===================================================================== *)

Module Item18.
Import Cxx.

(** The dynamic type of an object of the [Investment] hierarchy; the
    classes have no data members. *)
Inductive Investment : Type := Stock | Bond | RealEstate.

(** The free store: the objects created by [new] and not yet deleted. *)
Abbreviation heap := (gmap nat Investment).

(** [std::unique_ptr<Investment, decltype(delInvmt)>]: null, or the
    address of the object it owns. *)
Definition unique_ptr : Type := option nat.

(** A new-expression. *)
Definition new (o : Investment) : prog heap nat :=
  fun h => let p := fresh (dom h) in (Normal p, <[p := o]> h).

(** [auto delInvmt = [](Investment* pInvestment) { delete pInvestment; };] *)
Definition delInvmt (pInvestment : nat) : prog heap unit :=
  fun h =>
    match h !! pInvestment with
    | Some _ => (Normal tt, delete pInvestment h)
    | None => (Undefined, h)
    end.

(** [pInv.reset(p)]: takes ownership of [p] and passes the pointer
    owned before, if any, to the deleter. *)
Definition reset (pInv : unique_ptr) (p : nat) : prog heap unique_ptr :=
  (match pInv with
   | Some old => delInvmt old
   | None => ret tt
   end ;;
   ret (Some p))%cxx.

Section Factory.
(** The argument pack [Ts&&... params]. *)
Variable Ts : Type.

(** The constructors that [new Stock(std::forward<Ts>(params)...)],
    and likewise for the other two classes, can select: the classes
    declare none, so the object does not depend on the arguments. *)
Definition construct (o : Investment) (params : Ts) : Investment := o.

(** [template<typename... Ts> auto makeInvestment(Ts&&... params)] *)
Definition makeInvestment (params : Ts) : prog heap unique_ptr :=
  (let pInv : unique_ptr := None in
   pInv <-
     (if true then
        (p <- new (construct Stock params) ;; reset pInv p)
      else if true then
        (p <- new (construct Bond params) ;; reset pInv p)
      else if true then
        (p <- new (construct RealEstate params) ;; reset pInv p)
      else ret pInv) ;;
   ret pInv)%cxx.

End Factory.

Arguments makeInvestment {Ts} params.

End Item18.

(* ===================================================================== *)
(** ** item34.cxx *)
(* ===================================================================== *)

Module Item34.
Import Cxx.

(** The store of the process is the [boolalpha] flag of [std::cout]. *)
Definition boolalpha : prog (world bool) unit :=
  fun w => (Normal tt, mkWorld true (console w)).

(** [std::cout << b] for a [bool]. *)
Definition cout_bool (b : bool) : prog (world bool) unit :=
  fun w =>
    let text :=
      if store w then (if b then "true" else "false")
      else (if b then "1" else "0") in
    (Normal tt, mkWorld (store w) (console w +:+ text)).

(** [class PolyWidget { template<typename T> void operator()(const T&) {}; };] *)
Definition PolyWidget_call {T : Type} (param : T) : prog (world bool) unit := ret tt.

(** [std::bind(f, a, _1)] and [std::bind(f, _1, b)] store copies of [a]
    and [b]. *)
Definition bind_first {A B C} (f : A -> B -> C) (a : A) : B -> C := fun x => f a x.
Definition bind_second {A B C} (f : A -> B -> C) (b : B) : A -> C := fun x => f x b.

(** [std::bind(f, g, h)] with nested bind expressions [g] and [h]
    calls [f(g(x), h(x))]. *)
Definition bind_nested {A B C D} (f : B -> C -> D) (g : A -> B) (h : A -> C) : A -> D :=
  fun x => f (g x) (h x).

Definition main : prog (world bool) Z :=
  (let lowVal := 1 in
   let highVal := 20 in
   let betweenL := fun val : Z => (lowVal <=? val) && (val <=? highVal) in
   let betweenB :=
     bind_nested andb (bind_first Z.leb lowVal) (bind_second Z.leb highVal) in
   boolalpha ;;
   cout_bool (betweenL 10) ;; cout nl ;;
   let highVal := 2 in
   cout_bool (betweenB 10) ;; cout nl ;;
   PolyWidget_call 1930 ;;                  (* boundPW(1930); *)
   PolyWidget_call (@None unit) ;;          (* boundPW(nullptr); *)
   PolyWidget_call "Rosebud" ;;             (* boundPW("Rosebud"); *)
   PolyWidget_call 1930 ;;                  (* boundPW_14(1930); *)
   PolyWidget_call (@None unit) ;;          (* boundPW_14(nullptr); *)
   ret 0)%cxx.

End Item34.

(* ===================================================================== *)
(** ** item41.cxx *)
(* ===================================================================== *)

Module Item41.
Import Cxx.

(** [class Widget]: [names] and [p]. *)
Record Widget : Type := mkWidget {
  names : list string;
  p : option string
}.

Definition Widget_default : Widget := mkWidget [] None.

(** [void addName(std::string newName)]; the result is the object
    afterwards. *)
Definition addName (w : Widget) (newName : string) : prog (world unit) Widget :=
  (cout "3" ;; cout nl ;;
   ret (mkWidget (names w ++ [newName]) (p w)))%cxx.

(** [class SpecialWdiget : public Widget { public: int spw_a = 1; };] *)
Record SpecialWdiget : Type := mkSpecialWdiget {
  base : Widget;
  spw_a : Z
}.

Definition main : prog (world unit) Z :=
  (let name := "Bart" in
   let w := Widget_default in
   w <- addName w name ;;
   w <- addName w (name +:+ "Jenne") ;;
   let sw := mkSpecialWdiget Widget_default 1 in
   ret 0)%cxx.

End Item41.

(* ===================================================================== *)
(** ** <iostream>: formatted output *)
(* ===================================================================== *)

Module StdIostream.
Import Cxx.

(** [std::cout << n] for an integer: its decimal digits. *)
Definition show_int (z : Z) : string :=
  NilZero.string_of_int (Z.to_int z).

(** [std::cout << std::endl]: a line feed, and the stream is flushed. *)
Definition endl {H} : prog (world H) unit := cout nl.

(** Where a program prints [bool]s, its store is the [boolalpha] flag
    of [std::cout], which is clear when the program starts. *)
Definition boolalpha : prog (world bool) unit :=
  fun w => (Normal tt, mkWorld true (console w)).

(** [std::cout << b] for a [bool]. *)
Definition cout_bool (b : bool) : prog (world bool) unit :=
  fun w =>
    let text :=
      if store w then (if b then "true" else "false")
      else (if b then "1" else "0") in
    (Normal tt, mkWorld (store w) (console w +:+ text)).

End StdIostream.

(* ===================================================================== *)
(** ** item1.cxx *)
(* ===================================================================== *)

Module Item1.
Import Cxx StdIostream.

(** The types that [main] deduces. *)
Inductive type : Type :=
| int_
| char_
| const_ (t : type)
| pointer (t : type)
| lvalue_reference (t : type)
| rvalue_reference (t : type).

(** <type_traits>.  A reference type is never const-qualified itself. *)
Definition is_lvalue_reference (t : type) : bool :=
  match t with lvalue_reference _ => true | _ => false end.

Definition is_rvalue_reference (t : type) : bool :=
  match t with rvalue_reference _ => true | _ => false end.

Definition is_reference (t : type) : bool :=
  is_lvalue_reference t || is_rvalue_reference t.

Definition is_const (t : type) : bool :=
  match t with const_ _ => true | _ => false end.

Inductive value_category : Type := lvalue | rvalue.

(** What [template<typename T> void f(T&& param)] deduces for [T] from
    an argument of type [A]: [A&] for an lvalue, [A] for an rvalue. *)
Definition deduce (A : type) (c : value_category) : type :=
  match c with
  | lvalue => lvalue_reference A
  | rvalue => A
  end.

(** [T&&], with reference collapsing. *)
Definition add_rvalue_reference (T : type) : type :=
  match T with
  | lvalue_reference _ | rvalue_reference _ => T
  | _ => rvalue_reference T
  end.

(** The body of [f] (lines 60-75) for the deduced [T]. *)
Definition f_body (T : type) : prog (world bool) unit :=
  (boolalpha ;;
   cout "T Type: " ;; cout nl ;;
   cout "Reference: " ;; cout_bool (is_reference T) ;; cout nl ;;
   cout "Const: " ;; cout_bool (is_const T) ;; cout nl ;;
   cout "Lvalue Reference: " ;; cout_bool (is_lvalue_reference T) ;; cout nl ;;
   cout "Rvalue Reference: " ;; cout_bool (is_rvalue_reference T) ;;
   cout (nl +:+ nl) ;;
   let paramType := add_rvalue_reference T in
   boolalpha ;;
   cout "ParamType Type: " ;; cout nl ;;
   cout "Reference: " ;; cout_bool (is_reference paramType) ;; cout nl ;;
   cout "Const: " ;; cout_bool (is_const paramType) ;; cout nl ;;
   cout "Lvalue Reference: " ;; cout_bool (is_lvalue_reference paramType) ;;
   cout nl ;;
   cout "Rvalue Reference: " ;; cout_bool (is_rvalue_reference paramType) ;;
   cout (nl +:+ nl))%cxx.

(** A call [f(expr)], where [expr] has the type [A] (references
    already dropped) and the value category [c]. *)
Definition f (A : type) (c : value_category) : prog (world bool) unit :=
  f_body (deduce A c).

(** [arraySize]: the number of elements of the array. *)
Definition arraySize {T : Type} (a : list T) : nat := length a.

(** The array that a string literal initializes: its characters and
    the terminating null character. *)
Definition char_array (s : string) : list ascii :=
  list_ascii_of_string s ++ [Ascii.zero].

(** [main] (lines 85-152).  The variables stand for the types of the
    expressions that are passed to [f]. *)
Definition main : prog (world bool) Z :=
  (let x := int_ in                      (* int x = 27; *)
   let cx := const_ int_ in              (* const int cx = x; *)
   let rx := const_ int_ in              (* const int& rx = x; *)
   f x lvalue ;; f cx lvalue ;; f rx lvalue ;;
   f x lvalue ;; f cx lvalue ;; f rx lvalue ;;
   f x lvalue ;; f cx lvalue ;; f rx lvalue ;;
   f int_ rvalue ;;                      (* f(27); *)
   f x lvalue ;; f cx lvalue ;; f rx lvalue ;;
   let ptr := const_ (pointer (const_ char_)) in   (* const char* const ptr *)
   f ptr lvalue ;;
   let name := char_array "J. P. Biggs" in
   let arr := [1; 2; 3] in
   cout (show_int (Z.of_nat (arraySize name))) ;; cout nl ;;
   cout (show_int (Z.of_nat (arraySize arr))) ;; cout nl ;;
   ret 0)%cxx.

End Item1.

(* ===================================================================== *)
(** ** item3.cxx *)
(* ===================================================================== *)

Module Item3.
Import Cxx StdIostream.

(** [c[i]] on a [std::vector<int>]: a reference to the element, here
    its position; undefined when [i] is out of range. *)
Definition subscript {S} (c : list Z) (i : nat) : prog S nat :=
  fun s => if Nat.ltb i (length c) then (Normal i, s) else (Undefined, s).

(** [authAndAccess_14] (lines 99-103): [decltype(auto)] keeps the
    reference that [operator[]] returns. *)
Definition authAndAccess_14 {S} (c : list Z) (i : nat) : prog S nat :=
  subscript c i.

(** Reading through a reference to an element. *)
Definition load {S} (c : list Z) (r : nat) : prog S Z :=
  fun s =>
    match c !! r with
    | Some v => (Normal v, s)
    | None => (Undefined, s)
    end.

(** [main] (lines 111-134). *)
Definition main : prog (world unit) Z :=
  (let w := tt in                        (* Widget w; *)
   let cw := w in                        (* const Widget& cw = w; *)
   let myWidget1 := cw in
   let myWidget2 := cw in
   let a := [1; 2; 3] in                 (* std::vector<int> a{1, 2, 3}; *)
   (* std::move(a) is a cast: nothing is moved out of a *)
   r <- authAndAccess_14 a 1 ;;
   let a := <[r := 10]> a in             (* ... = 10; *)
   r <- subscript a 1 ;;
   v <- load a r ;;
   cout (show_int v) ;; cout nl ;;       (* std::cout << a[1] << "\n"; *)
   ret 0)%cxx.

End Item3.

(* ===================================================================== *)
(** ** item4.cxx *)
(* ===================================================================== *)

Module Item4.
Import Cxx.

Inductive type : Type :=
| int_
| Widget_
| const_ (t : type)
| pointer (t : type)
| lvalue_reference (t : type).

(** The type that a [typeid] expression reports for the type [t]:
    a reference is dropped, then a top-level [const]. *)
Definition typeid (t : type) : type :=
  let u := match t with lvalue_reference u => u | _ => t end in
  match u with const_ v => v | _ => u end.

(** The type that [auto x = e;] gives [x] for an [e] of type [t]:
    top-level [const] is dropped. *)
Definition auto (t : type) : type :=
  match t with const_ u => u | _ => t end.

(** [class Widget {};] *)
Definition Widget : Type := unit.

(** [std::vector<Widget> createVec()] *)
Definition createVec : list Widget := [tt].

Section Names.
(** [std::type_info::name()]: the text is left to the implementation. *)
Variable name : type -> string.
(** [boost::typeindex::type_id_with_cvr<T>().pretty_name()]. *)
Variable pretty_name : type -> string.

(** [template<typename T> void f(const T& param)] (lines 118-128). *)
Definition f (T : type) : prog (world unit) unit :=
  (let param := lvalue_reference (const_ T) in
   cout "T =    " ;; cout (name (typeid T)) ;; cout nl ;;
   cout "param =    " ;; cout (name (typeid param)) ;; cout nl ;;
   cout "T =    " ;; cout (pretty_name T) ;; cout nl ;;
   cout "param =    " ;; cout (pretty_name param) ;; cout nl)%cxx.

(** [main] (lines 133-157). *)
Definition main : prog (world unit) Z :=
  (let theAnswer := const_ int_ in       (* const int theAnswer = 42; *)
   let x := auto theAnswer in            (* auto x = theAnswer; *)
   let y := auto (pointer theAnswer) in  (* auto y = &theAnswer; *)
   cout (name (typeid x)) ;; cout nl ;;
   cout (name (typeid y)) ;; cout nl ;;
   let vw := createVec in                (* const auto vw = createVec(); *)
   (if negb (Nat.eqb (length vw) 0)
    then f (pointer (const_ Widget_))    (* f(&vw[0]); *)
    else ret tt) ;;
   ret 0)%cxx.

End Names.

End Item4.

(* ===================================================================== *)
(** ** item15.cxx *)
(* ===================================================================== *)

Module Item15.
Import Cxx PrimFloat.

(* the decimal literals of the source are read as the nearest double *)
#[local] Set Warnings "-inexact-float".

(** [class Point] with its two [double] members. *)
Record Point : Type := mkPoint { x : float; y : float }.

Definition xValue (p : Point) : float := x p.
Definition yValue (p : Point) : float := y p.
Definition setX (p : Point) (newX : float) : Point := mkPoint newX (y p).
Definition setY (p : Point) (newY : float) : Point := mkPoint (x p) newY.

(** [midPoint] (lines 374-377). *)
Definition midPoint (p1 p2 : Point) : Point :=
  mkPoint ((xValue p1 + xValue p2) / 2)%float
          ((yValue p1 + yValue p2) / 2)%float.

(** [reflection] (lines 380-387). *)
Definition reflection (p : Point) : Point :=
  let result := mkPoint 0%float 0%float in
  let result := setX result (- xValue p)%float in
  let result := setY result (- yValue p)%float in
  result.

(** The [constexpr] objects of [main] (lines 393-398): their values
    are computed during compilation. *)
Definition p1 : Point := mkPoint 9.4%float 27.7%float.
Definition p2 : Point := mkPoint 28.8%float 5.3%float.
Definition mid : Point := midPoint p1 p2.
Definition reflectedMid : Point := reflection mid.

Section Main.
(** [std::cout << d] for a [double]: the digits that the stream's
    precision gives. *)
Variable show_double : float -> string.

(** [main] (lines 390-406). *)
Definition main : prog (world unit) Z :=
  (cout (show_double (xValue reflectedMid)) ;; cout nl ;;
   ret 0)%cxx.

End Main.

End Item15.

(* ===================================================================== *)
(** ** item23.cxx *)
(* ===================================================================== *)

Module Item23.
Import Cxx StdIostream.

Inductive value_category : Type := lvalue | rvalue.

(** [class Widget] with its member [s]. *)
Record Widget : Type := mkWidget { s : string }.

(** [Widget(std::string value) : s(std::move(value)) {}] *)
Definition Widget_ctor (value : string) : Widget := mkWidget value.

(** [std::string gets() { return s; }] *)
Definition gets (w : Widget) : string := s w.

(** The two overloads of [process]: [const Widget&] takes an lvalue,
    [Widget&&] an rvalue; neither touches its argument. *)
Definition process (c : value_category) (w : Widget) : prog (world unit) unit :=
  match c with
  | lvalue => (cout "Called lvalue process" ;; endl)%cxx
  | rvalue => (cout "Called rvalue process" ;; endl)%cxx
  end.

(** [std::move(x)]: an unconditional cast to an rvalue. *)
Definition move (c : value_category) : value_category := rvalue.

(** [std::forward<T>(param)], where [T] was deduced from an argument
    of category [c]: [T] is [Widget&] for an lvalue and the cast gives
    an lvalue; [T] is [Widget] for an rvalue and the cast gives an
    rvalue. *)
Definition forward (c : value_category) : value_category :=
  match c with
  | lvalue => lvalue
  | rvalue => rvalue
  end.

(** [template<typename T> void logAndProcess(T&& param)] *)
Definition logAndProcess (c : value_category) (param : Widget)
  : prog (world unit) unit :=
  process (forward c) param.

(** [main] (lines 98-110). *)
Definition main : prog (world unit) Z :=
  (let s := "a" in                       (* auto s = std::string("a"); *)
   let w := Widget_ctor s in             (* Widget w(s); *)
   logAndProcess lvalue w ;;
   logAndProcess (move lvalue) w ;;
   cout s ;; endl ;;
   cout (gets w) ;; endl ;;
   ret 0)%cxx.

End Item23.

(* ===================================================================== *)
(** ** item39.cxx: [detectFlag], [reactFlag] and [main] *)
(* ===================================================================== *)

(** [main] starts two threads, and the three threads take their steps
    in any order.  A state records where each thread stands in its
    code, who holds the mutex [m], the value of [flag], and the text
    written so far. *)
Module Item39Main.

(** [main], [th3] running [detectFlag], [th4] running [reactFlag]. *)
Inductive thread_id : Type := t_main | th3 | th4.

(** [main], lines 266-284: the statement that comes next. *)
Inductive main_pc : Type :=
| M_start          (* std::thread th3(detectFlag); *)
| M_th3_started    (* std::thread th4(reactFlag); *)
| M_th4_started    (* th3.join(); *)
| M_th3_joined     (* th4.join(); *)
| M_returned.      (* after return 0; *)

(** [detectFlag], lines 187-194. *)
Inductive detect_pc : Type :=
| D_entry          (* std::lock_guard<std::mutex> g(m); *)
| D_locked         (* std::this_thread::sleep_for(std::chrono::seconds(2)); *)
| D_slept          (* flag = true; *)
| D_flag_set       (* end of the block: g unlocks m *)
| D_unlocked       (* cv.notify_one(); *)
| D_done.

(** [reactFlag], lines 196-203.  [cv.wait(lk, pred)] is
    [while (!pred()) wait(lk);], and [wait(lk)] unlocks [m], blocks, and
    locks [m] again once it has been woken. *)
Inductive react_pc : Type :=
| R_entry          (* std::unique_lock<std::mutex> lk(m); *)
| R_check          (* the predicate [[]{ return flag; }], m held *)
| R_waiting        (* blocked inside wait, m released *)
| R_woken          (* woken inside wait: lock m again *)
| R_print          (* std::cout << "flag has set to true" << "\n"; *)
| R_printed        (* end of the function: lk unlocks m *)
| R_done.

Record state : Type := mkState {
  pc_main : main_pc;
  pc_detect : detect_pc;
  pc_react : react_pc;
  m : option thread_id;      (* the thread that holds the mutex *)
  flag : bool;
  console : string
}.

(** The state in which [main] is entered: [bool flag(false)], nobody
    holds [m], nothing written. *)
Definition init : state :=
  mkState M_start D_entry R_entry None false EmptyString.

(** What can happen next: a thread takes its next step, or the thread
    blocked in [wait] wakes up without a notification. *)
Inductive action : Type :=
| run (t : thread_id)
| spurious_wakeup.

(** One step of [main]. *)
Definition main (s : state) : option state :=
  match pc_main s with
  | M_start =>
      Some (mkState M_th3_started (pc_detect s) (pc_react s) (m s) (flag s) (console s))
  | M_th3_started =>
      Some (mkState M_th4_started (pc_detect s) (pc_react s) (m s) (flag s) (console s))
  | M_th4_started =>
      (* th3.join() returns once detectFlag has returned *)
      match pc_detect s with
      | D_done =>
          Some (mkState M_th3_joined (pc_detect s) (pc_react s) (m s) (flag s) (console s))
      | _ => None
      end
  | M_th3_joined =>
      (* th4.join() returns once reactFlag has returned *)
      match pc_react s with
      | R_done =>
          Some (mkState M_returned (pc_detect s) (pc_react s) (m s) (flag s) (console s))
      | _ => None
      end
  | M_returned => None
  end.

(** [m.lock()] by thread [t]: possible when nobody holds [m]. *)
Definition lock (t : thread_id) (s : state) : option (option thread_id) :=
  match m s with
  | None => Some (Some t)
  | Some _ => None
  end.

(** One step of the thread that runs [detectFlag]. *)
Definition detectFlag (s : state) : option state :=
  match pc_main s with
  | M_start => None                    (* th3 does not exist yet *)
  | _ =>
      match pc_detect s with
      | D_entry =>
          match lock th3 s with
          | Some held =>
              Some (mkState (pc_main s) D_locked (pc_react s) held (flag s) (console s))
          | None => None
          end
      | D_locked =>
          Some (mkState (pc_main s) D_slept (pc_react s) (m s) (flag s) (console s))
      | D_slept =>
          Some (mkState (pc_main s) D_flag_set (pc_react s) (m s) true (console s))
      | D_flag_set =>
          Some (mkState (pc_main s) D_unlocked (pc_react s) None (flag s) (console s))
      | D_unlocked =>
          (* notify_one wakes the thread that is waiting, if there is one *)
          Some (mkState (pc_main s) D_done
                        (match pc_react s with
                         | R_waiting => R_woken
                         | pc => pc
                         end)
                        (m s) (flag s) (console s))
      | D_done => None
      end
  end.

(** One step of the thread that runs [reactFlag]. *)
Definition reactFlag (s : state) : option state :=
  match pc_main s with
  | M_start | M_th3_started => None    (* th4 does not exist yet *)
  | _ =>
      match pc_react s with
      | R_entry | R_woken =>
          match lock th4 s with
          | Some held =>
              Some (mkState (pc_main s) (pc_detect s) R_check held (flag s) (console s))
          | None => None
          end
      | R_check =>
          if flag s
          then Some (mkState (pc_main s) (pc_detect s) R_print (m s) (flag s) (console s))
          else Some (mkState (pc_main s) (pc_detect s) R_waiting None (flag s) (console s))
      | R_waiting => None
      | R_print =>
          Some (mkState (pc_main s) (pc_detect s) R_printed (m s) (flag s)
                        (console s +:+ "flag has set to true" +:+ Cxx.nl))
      | R_printed =>
          Some (mkState (pc_main s) (pc_detect s) R_done None (flag s) (console s))
      | R_done => None
      end
  end.

(** One step; [None] when the action is not possible in [s]. *)
Definition step (a : action) (s : state) : option state :=
  match a with
  | run t_main => main s
  | run th3 => detectFlag s
  | run th4 => reactFlag s
  | spurious_wakeup =>
      match pc_react s with
      | R_waiting =>
          Some (mkState (pc_main s) (pc_detect s) R_woken (m s) (flag s) (console s))
      | _ => None
      end
  end.

(** A run: the actions of a schedule, one after the other. *)
Fixpoint exec (sched : list action) (s : state) : option state :=
  match sched with
  | [] => Some s
  | a :: rest =>
      match step a s with
      | Some s' => exec rest s'
      | None => None
      end
  end.

(** The line that [reactFlag] writes. *)
Definition line : string := "flag has set to true" +:+ Cxx.nl.

(** *** Exploring the states *)

Definition main_pc_eqb (a b : main_pc) : bool :=
  match a, b with
  | M_start, M_start | M_th3_started, M_th3_started
  | M_th4_started, M_th4_started | M_th3_joined, M_th3_joined
  | M_returned, M_returned => true
  | _, _ => false
  end.

Definition detect_pc_eqb (a b : detect_pc) : bool :=
  match a, b with
  | D_entry, D_entry | D_locked, D_locked | D_slept, D_slept
  | D_flag_set, D_flag_set | D_unlocked, D_unlocked | D_done, D_done => true
  | _, _ => false
  end.

Definition react_pc_eqb (a b : react_pc) : bool :=
  match a, b with
  | R_entry, R_entry | R_check, R_check | R_waiting, R_waiting
  | R_woken, R_woken | R_print, R_print | R_printed, R_printed
  | R_done, R_done => true
  | _, _ => false
  end.

Definition holder_eqb (a b : option thread_id) : bool :=
  match a, b with
  | None, None
  | Some t_main, Some t_main | Some th3, Some th3 | Some th4, Some th4 => true
  | _, _ => false
  end.

Definition state_eqb (a b : state) : bool :=
  main_pc_eqb (pc_main a) (pc_main b) &&
  detect_pc_eqb (pc_detect a) (pc_detect b) &&
  react_pc_eqb (pc_react a) (pc_react b) &&
  holder_eqb (m a) (m b) &&
  Bool.eqb (flag a) (flag b) &&
  String.eqb (console a) (console b).

Definition all_actions : list action :=
  [run t_main; run th3; run th4; spurious_wakeup].

Definition successors (s : state) : list state :=
  omap (fun a => step a s) all_actions.

Definition known (l : list state) (s : state) : bool :=
  existsb (state_eqb s) l.

(** Depth-first exploration from the states [todo]. *)
Fixpoint explore (fuel : nat) (todo seen : list state) : list state :=
  match fuel with
  | O => seen
  | S n =>
      match todo with
      | [] => seen
      | s :: rest =>
          if known seen s then explore n rest seen
          else explore n (successors s ++ rest) (s :: seen)
      end
  end.

(** The states met by the exploration from [init]. *)
Definition reachable : list state := explore 1000 [init] [].

(** The list is closed under the steps. *)
Definition closed (l : list state) : bool :=
  forallb (fun s => forallb (known l) (successors s)) l.

(** A scheduler that always runs the first thread that can take a
    step, for [fuel] steps at most: the actions it chose and the state
    it reached. *)
Fixpoint finish (fuel : nat) (s : state) : list action * state :=
  match fuel with
  | O => ([], s)
  | S n =>
      match step (run t_main) s, step (run th3) s, step (run th4) s with
      | Some s', _, _ => let r := finish n s' in (run t_main :: fst r, snd r)
      | None, Some s', _ => let r := finish n s' in (run th3 :: fst r, snd r)
      | None, None, Some s' => let r := finish n s' in (run th4 :: fst r, snd r)
      | None, None, None => ([], s)
      end
  end.

(** The thread stands inside the region that [m] protects. *)
Definition detect_holds (s : state) : bool :=
  match pc_detect s with
  | D_locked | D_slept | D_flag_set => true
  | _ => false
  end.

Definition react_holds (s : state) : bool :=
  match pc_react s with
  | R_check | R_print | R_printed => true
  | _ => false
  end.

(** What the exploration checks in a state: the two threads are not
    both inside the protected region; once [main] has returned, the
    line and nothing else has been written; and the scheduler [finish]
    brings [main] to its end from here, with the line written. *)
Definition checked (s : state) : bool :=
  negb (detect_holds s && react_holds s) &&
  (if main_pc_eqb (pc_main s) M_returned then String.eqb (console s) line
   else true) &&
  (let r := snd (finish 16 s) in
   main_pc_eqb (pc_main r) M_returned && String.eqb (console r) line).

End Item39Main.

(* ===================================================================== *)
(** ** The [main] functions that create objects and return *)
(* ===================================================================== *)

(** item2.cxx, lines 92-102. *)
Module Item2.
Definition main : Cxx.prog (Cxx.world unit) Z :=
  let v : list Z := [1; 2; 3] in           (* std::vector<int> v{1, 2, 3}; *)
  Cxx.ret 0.
End Item2.

(** item5.cxx, lines 41-66: three closures are created and none is
    called. *)
Module Item5.
Import Cxx.

(** [class Widget {};] and [bool operator<(const Widget&, const Widget&)]. *)
Definition Widget : Type := unit.
Definition Widget_lt (a b : Widget) : bool := false.

(** [*p1 < *p2] for two smart pointers; dereferencing a null pointer is
    undefined. *)
Definition deref_less (p1 p2 : option Widget) : outcome bool :=
  match p1, p2 with
  | Some a, Some b => Normal (Widget_lt a b)
  | _, _ => Undefined
  end.

Definition main : prog (world unit) Z :=
  let derefUPLess := deref_less in
  let derefLess := deref_less in
  let derefUPLess_11 := deref_less in
  ret 0.
End Item5.

(** item7.cxx, lines 62-109: seven objects of a class whose
    constructors have empty bodies. *)
Module Item7.
Import Cxx PrimFloat.

(** [class Widget] with its members [x] and [y]; each constructor
    leaves them to their default member initializers. *)
Record Widget : Type := mkWidget { x : Z; y : Z }.

Definition Widget_default : Widget := mkWidget 0 0.                  (* Widget() {} *)
Definition Widget_int (a : Z) : Widget := mkWidget 0 0.              (* Widget(int) {} *)
Definition Widget_int_bool (a : Z) (b : bool) : Widget := mkWidget 0 0.
Definition Widget_int_double (a : Z) (b : float) : Widget := mkWidget 0 0.
(** [Widget(std::initializer_list<long double>) {}]; the elements that
    [main] passes (10, 5.0 and 1.0) are exact in every binary
    floating-point format. *)
Definition Widget_init_list (il : list float) : Widget := mkWidget 0 0.
(** [Widget(const Widget&) {}] *)
Definition Widget_copy (rhs : Widget) : Widget := mkWidget 0 0.
(** [operator float() const { return 1.0; }] *)
Definition to_float (w : Widget) : float := 1%float.

(** [main] (lines 62-109).  For [w6] and [w8] the source notes that a
    compiler may select the copy constructor instead; its body is empty
    as well. *)
Definition main : prog (world unit) Z :=
  let w1 := Widget_int 10 in                       (* Widget w1(10); *)
  let w3 := Widget_default in                      (* Widget w3{}; *)
  let w4 := Widget_init_list [10; 5]%float in      (* Widget w4{10, 5.0}; *)
  let w5 := Widget_copy w4 in                      (* Widget w5(w4); *)
  let w6 := Widget_init_list [to_float w4] in      (* Widget w6{w4}; *)
  let w7 := Widget_copy w4 in                      (* Widget w7(std::move(w4)); *)
  let w8 := Widget_init_list [to_float w4] in      (* Widget w8{std::move(w4)}; *)
  ret 0.
End Item7.

(** item9.cxx, lines 140-149: two empty lists. *)
Module Item9.
Definition main : Cxx.prog (Cxx.world unit) Z :=
  let lw : list (list Z * list Z) := [] in      (* MyAllocList<Widget<int>> lw; *)
  let lw_ : list (list Z * list Z) := [] in     (* MyAllocList_<Widget<int>>::type lw_; *)
  Cxx.ret 0.
End Item9.

(** item13.cxx, lines 255-313.  The store holds the namespace-scope
    vectors and iterators of [cxx98] and [cxx11]; an iterator is a
    position in its vector. *)
Module Item13.
Import Cxx.

Record globals : Type := mkGlobals {
  values98 : list Z; it98 : nat;
  values11 : list Z; it11 : nat
}.

(** [std::find(first, last, x)]: the position of the first [x], or the
    end. *)
Fixpoint find (l : list Z) (x : Z) : nat :=
  match l with
  | [] => O
  | y :: l' => if y =? x then O else S (find l' x)
  end.

(** [v.insert(it, x)]: undefined unless [it] is a position of [v] or
    its end. *)
Definition insert_at (v : list Z) (it : nat) (x : Z) : outcome (list Z) :=
  if Nat.leb it (length v) then Normal (take it v ++ x :: drop it v)
  else Undefined.


Definition insert98 (x : Z) : prog (world globals) unit :=
  fun w =>
    let g := store w in
    match insert_at (values98 g) (it98 g) x with
    | Normal v => (Normal tt, mkWorld (mkGlobals v (it98 g) (values11 g) (it11 g)) (console w))
    | _ => (Undefined, w)
    end.

Definition insert11 (x : Z) : prog (world globals) unit :=
  fun w =>
    let g := store w in
    match insert_at (values11 g) (it11 g) x with
    | Normal v => (Normal tt, mkWorld (mkGlobals (values98 g) (it98 g) v (it11 g)) (console w))
    | _ => (Undefined, w)
    end.

Definition main : prog (world globals) Z :=
  (insert98 1998 ;;       (* cxx98::values.insert(cxx98::it, 1998); *)
   insert11 1983 ;;       (* cxx11::values.insert(cxx11::it, 1983); *)
   ret 0)%cxx.
End Item13.

(** item32.cxx, lines 136-150: two closures are created and none is
    called. *)
Module Item32.
Import Cxx.

(** [class Widget] and its three member functions. *)
Definition Widget : Type := unit.
Definition isValidated (w : Widget) : bool := true.
Definition isProcessed (w : Widget) : bool := true.
Definition isArchived (w : Widget) : bool := true.

(** The call operator of the closure and of [IsValAndArch], over the
    pointer that the object owns. *)
Definition call (pw : option Widget) : outcome bool :=
  match pw with
  | Some w => Normal (isValidated w && isArchived w)
  | None => Undefined
  end.

Definition main : prog (world unit) Z :=
  let pw : option Widget := Some tt in          (* std::make_unique<Widget>() *)
  let func := (fun _ : unit => call pw) in      (* [pw = std::move(pw)] { ... } *)
  let pw : option Widget := None in
  let func_isValAndArch := (fun _ : unit => call (Some tt)) in
  ret 0.
End Item32.

(* ===================================================================== *)
(** ** The [main] functions that only return *)
(* ===================================================================== *)

(** item19.cxx, lines 178-182: [using namespace item19; return 0;] *)
Module Item19.
Definition main : Cxx.prog (Cxx.world unit) Z := Cxx.ret 0.
End Item19.

(** item22.cxx, lines 384-390: a block with a using-directive, then
    [return 0;] *)
Module Item22.
Definition main : Cxx.prog (Cxx.world unit) Z := Cxx.ret 0.
End Item22.

(** item24.cxx, lines 155-157: [return 0;] *)
Module Item24.
Definition main : Cxx.prog (Cxx.world unit) Z := Cxx.ret 0.
End Item24.

(** item25.cxx, lines 183-185: [return 0;] *)
Module Item25.
Definition main : Cxx.prog (Cxx.world unit) Z := Cxx.ret 0.
End Item25.

(* ===================================================================== *)
(** ** item20.cxx: the caching factory *)
(* ===================================================================== *)

Module Item20Cache.
Import Cxx StdMemory.

Section Cache.
(** The template parameter [WidgetID]: a key type of
    [std::unordered_map]. *)
Context {WidgetID : Type} `{Countable WidgetID}.

(** The free store with the control blocks, and the function-local
    [static std::unordered_map<WidgetID, std::weak_ptr<const Widget>> cache]. *)
Record state : Type := mkState {
  blocks : gmap nat (ctrl Item20.Widget);
  cache : gmap WidgetID (option nat)        (* the elements are weak_ptrs *)
}.

(** Run a computation on the control blocks. *)
Definition on_blocks {A} (m : prog (gmap nat (ctrl Item20.Widget)) A) : prog state A :=
  fun s =>
    match m (blocks s) with
    | (r, h) => (r, mkState h (cache s))
    end.

(** [loadWidget(id)]: [return std::make_shared<const Widget>();] *)
Definition loadWidget (id : WidgetID) : prog state shared_ptr :=
  on_blocks (make_shared Item20.Widget_default).

(** [cache[id]]: [operator[]] inserts an empty [weak_ptr] under a key
    that is missing, and yields the element. *)
Definition cache_at (id : WidgetID) : prog state weak_ptr :=
  fun s =>
    match cache s !! id with
    | Some wp => (Normal wp, s)
    | None => (Normal None, mkState (blocks s) (<[id := None]> (cache s)))
    end.

(** [cache[id] = objPtr]: the element observes the object of [objPtr]
    and gives up what it observed before. *)
Definition cache_assign (id : WidgetID) (objPtr : shared_ptr) : prog state unit :=
  (old <- cache_at id ;;
   wp <- on_blocks (weak_from_shared objPtr) ;;
   on_blocks (weak_release old) ;;
   modify (fun s => mkState (blocks s) (<[id := wp]> (cache s))))%cxx.

(** [fastLoadWidget(id)], lines 185-199. *)
Definition fastLoadWidget (id : WidgetID) : prog state shared_ptr :=
  (wp <- cache_at id ;;
   objPtr <- on_blocks (lock wp) ;;
   match objPtr with
   | None =>
       objPtr <- loadWidget id ;;
       cache_assign id objPtr ;;
       ret objPtr
   | Some _ => ret objPtr
   end)%cxx.

(** The cache is in order: an element that observes a block observes a
    block that exists and counts at least one observer, and two
    elements never observe the same block. *)
Definition cache_ok (s : state) : Prop :=
  (forall id b, cache s !! id = Some (Some b) ->
     exists c, blocks s !! b = Some c /\ (0 < weak_count c)%nat) /\
  (forall id1 id2 b, cache s !! id1 = Some (Some b) ->
     cache s !! id2 = Some (Some b) -> id1 = id2).

End Cache.

Arguments state WidgetID {_ _}.

End Item20Cache.


(* ===================================================================== *)
(** ** item36.cxx: [reallyAsync] *)
(* ===================================================================== *)

Module Item36Async.

(** [reallyAsync(f)], lines 66-71:
    [return std::async(std::launch::async, std::forward<F>(f), ...);]
    the policy is given, so nothing is left to the implementation to
    choose. *)
Definition reallyAsync (latency late : Z) (e : Item36.env) : Item36.future :=
  Item36.std_async Item36.launch.async latency late e.

End Item36Async.

(* ===================================================================== *)
(** ** item15.cxx: [pow] *)
(* ===================================================================== *)

Module Item15Pow.
Import Cxx.

Definition INT_MIN : Z := -2147483648.
Definition INT_MAX : Z := 2147483647.

(** The value is one of [int]. *)
Definition in_int (z : Z) : bool := (INT_MIN <=? z) && (z <=? INT_MAX).

(** The loop of [pow] (line 350), entered with the values of [i] and
    [result]: [for (int i = 0; i < exp; ++i) result *= base;].  A
    product that is not a value of [int] is undefined behaviour. *)
Equations? pow_loop (base exp i result : Z) : outcome Z
  by wf (Z.to_nat (exp - i)) lt :=
  pow_loop base exp i result with Z_lt_dec i exp := {
    | left _ =>
        if in_int (result * base)
        then pow_loop base exp (i + 1) (result * base)
        else Undefined
    | right _ => Normal result }.
Proof. lia. Qed.

(** [constexpr int pow(int base, int exp) noexcept] (lines 348-352). *)
Definition pow (base exp : Z) : outcome Z :=
  let result := 1 in
  pow_loop base exp 0 result.

(** [constexpr auto numConds = 5;] *)
Definition numConds : Z := 5.

End Item15Pow.

(* ===================================================================== *)
(** ** item13.cxx: [findAndInsert] *)
(* ===================================================================== *)

Module Item13Generic.
Import Cxx.

(** [findAndInsert(container, targetVal, insertVal)] (lines 276-289)
    on a [std::vector<int>]: the first [targetVal] is looked for with
    [std::find], and [insertVal] is inserted in front of it, or at the
    end when there is none.  The result is the container afterwards. *)
Definition findAndInsert (container : list Z) (targetVal insertVal : Z)
  : outcome (list Z) :=
  let it := Item13.find container targetVal in
  Item13.insert_at container it insertVal.

End Item13Generic.

(* ===================================================================== *)
(** ** A program and its standard output *)
(* ===================================================================== *)

Module Repository.




End Repository.

(* ===================================================================== *)
(** ** The three copies of [ThreadRAII] side by side *)
(* ===================================================================== *)

(** The class is written out in item37.cxx, item39.cxx and item40.cxx.
    These maps carry an object of the class of item37.cxx to the object
    with the same members of the class of another file, and back. *)
Module Copies.
Import Cxx.

Definition action39 (a : Item37.DtorAction) : Item39.DtorAction :=
  match a with
  | Item37.join => Item39.join
  | Item37.detach => Item39.detach
  end.

Definition to39 (r : Item37.ThreadRAII) : Item39.ThreadRAII :=
  Item39.mkThreadRAII (action39 (Item37.action r)) (Item37.t r).

Definition from39 (r : Item39.ThreadRAII) : Item37.ThreadRAII :=
  Item37.mkThreadRAII
    (match Item39.action r with
     | Item39.join => Item37.join
     | Item39.detach => Item37.detach
     end)
    (Item39.t r).

Definition action40 (a : Item37.DtorAction) : Item40.DtorAction :=
  match a with
  | Item37.join => Item40.join
  | Item37.detach => Item40.detach
  end.

Definition to40 (r : Item37.ThreadRAII) : Item40.ThreadRAII :=
  Item40.mkThreadRAII (action40 (Item37.action r)) (Item37.t r).

Definition from40 (r : Item40.ThreadRAII) : Item37.ThreadRAII :=
  Item37.mkThreadRAII
    (match Item40.action r with
     | Item40.join => Item37.join
     | Item40.detach => Item37.detach
     end)
    (Item40.t r).

(** Carry the value of a finished computation along a map. *)
Definition on_result {S A B} (f : A -> B) (r : outcome A * S) : outcome B * S :=
  match r with
  | (Normal a, s) => (Normal (f a), s)
  | (Throws e, s) => (Throws e, s)
  | (Terminated, s) => (Terminated, s)
  | (Undefined, s) => (Undefined, s)
  end.

Definition both {A B} (f : A -> B) (p : A * A) : B * B := (f (fst p), f (snd p)).

End Copies.

(* ===================================================================== *)
(** * Properties *)
(* ===================================================================== *)

(** ** Text written to standard output *)

Lemma append_assoc (a b c : string) : (a +:+ b) +:+ c = a +:+ (b +:+ c).
Proof.
  induction a as [|ch a IH]; [reflexivity |].
  change (String ch ((a +:+ b) +:+ c) = String ch (a +:+ (b +:+ c))).
  now rewrite IH.
Qed.




(** ** item20: ownership and observation *)

Section Item20Facts.
Import Cxx StdMemory Item20.

Variable what : string.

(** The block that [std::make_shared] will allocate in the heap [h]
    is not in use. *)
Lemma fresh_block_free (h : heap) : h !! fresh (dom h) = None.
Proof. apply not_elem_of_dom, is_fresh. Qed.

Lemma main_setup_run (w : world heap) :
  main_setup w =
    (Normal (nullptr, Some (fresh (dom (store w)))),
     mkWorld (dangling (store w)) (console w)).
Proof.
  destruct w as [h out].
  unfold main_setup, bind, lift, ret, make_shared, weak_from_shared,
    assign_nullptr, release, bind, ret, settle, dangling; simpl.
  rewrite lookup_insert_eq; simpl.
  rewrite lookup_insert_eq; simpl.
  now rewrite !insert_insert_eq.
Qed.

Lemma dangling_use_count (h : heap) :
  weak_use_count (Some (fresh (dom h))) (dangling h) = O.
Proof.
  unfold weak_use_count, dangling. now rewrite lookup_insert_eq.
Qed.

(** Evaluate the monadic steps up to the next test of the use count,
    which [dangling_use_count] settles. *)
Ltac observe :=
  repeat (rewrite ?dangling_use_count;
          cbn -[weak_use_count dangling String.append]).

Lemma main_report_run (h : heap) (out : string) :
  main_report (Some (fresh (dom h))) (mkWorld (dangling h) out) =
    (Normal tt, mkWorld (dangling h) ((out +:+ "wpw has expired") +:+ nl)).
Proof.
  unfold main_report, bind, lift, expired. observe. reflexivity.
Qed.

Lemma main_locks_run (h : heap) (out : string) :
  main_locks (Some (fresh (dom h))) (mkWorld (dangling h) out) =
    (Normal (nullptr, nullptr), mkWorld (dangling h) out).
Proof.
  unfold main_locks, bind, lift, lock, ret. observe. reflexivity.
Qed.

Lemma main_try_run (h : heap) (out : string) :
  main_try what (Some (fresh (dom h))) (mkWorld (dangling h) out) =
    (Normal tt, mkWorld (dangling h) ((out +:+ what) +:+ nl)).
Proof.
  unfold main_try, try_catch, bind, lift, shared_from_weak. observe.
  reflexivity.
Qed.

(** The whole run of [main]: it returns 0, has written the two lines,
    and has given back the control block. *)
Lemma main_run (w : world heap) :
  main what w =
    (Normal 0,
     mkWorld (store w)
             (console w +:+ "wpw has expired" +:+ nl +:+ what +:+ nl)).
Proof.
  unfold main. unfold bind at 1. rewrite main_setup_run. cbn [snd fst].
  unfold bind at 1. rewrite main_report_run.
  unfold bind at 1. rewrite main_locks_run. cbn [snd fst].
  unfold bind at 1. rewrite main_try_run.
  unfold bind, lift, release, weak_release, nullptr, ret, settle, dangling; simpl.
  rewrite lookup_insert_eq; simpl.
  rewrite delete_insert_id by apply fresh_block_free.
  now rewrite !append_assoc.
Qed.

End Item20Facts.

(** C1.  In item20's [main], from every process state [w] and for
    every text of [what()].  Lines 227-230: [spw] becomes the one owner
    of a new Widget in a block [b] that was not in use, and [wpw]
    observes that block; the use count is 1 and [wpw.expired()] is
    false.  Line 232: [spw = nullptr] gives up the last ownership; the
    Widget is destroyed, the block stays for its observer with use
    count 0, and [wpw.expired()] is true.  Then [main] writes the line
    "wpw has expired", and both [wpw.lock()] calls return null
    pointers and leave the block without an owner. *)
Theorem item20_wpw_expired_after_reset (what : string)
        (w : Cxx.world Item20.heap) :
  let h := Cxx.store w in
  let b := fresh (dom h) in
  let created := <[b := StdMemory.mkCtrl 1 0 (Some Item20.Widget_default)]> h in
  let observed := <[b := StdMemory.mkCtrl 1 1 (Some Item20.Widget_default)]> h in
  let gone := <[b := StdMemory.mkCtrl 0 1 (@None Item20.Widget)]> h in
  (* auto spw = std::make_shared<Widget>(); *)
  h !! b = None /\
  StdMemory.make_shared Item20.Widget_default h = (Cxx.Normal (Some b), created) /\
  (* std::weak_ptr<Widget> wpw(spw); *)
  StdMemory.weak_from_shared (Some b) created = (Cxx.Normal (Some b), observed) /\
  StdMemory.weak_use_count (Some b) observed = 1%nat /\
  StdMemory.expired (Some b) observed = (Cxx.Normal false, observed) /\
  (* spw = nullptr; *)
  StdMemory.assign_nullptr (Some b) observed =
    (Cxx.Normal StdMemory.nullptr, gone) /\
  StdMemory.weak_use_count (Some b) gone = 0%nat /\
  StdMemory.expired (Some b) gone = (Cxx.Normal true, gone) /\
  (* the three statements as they stand in main *)
  Item20.main_setup w =
    (Cxx.Normal (StdMemory.nullptr, Some b), Cxx.mkWorld gone (Cxx.console w)) /\
  (* if (wpw.expired()) std::cout << "wpw has expired" << "\n"; *)
  Item20.main_report (Some b) (Cxx.mkWorld gone (Cxx.console w)) =
    (Cxx.Normal tt,
     Cxx.mkWorld gone (Cxx.console w +:+ "wpw has expired" +:+ Cxx.nl)) /\
  (* std::shared_ptr<Widget> spw1 = wpw.lock(); auto spw2 = wpw.lock(); *)
  (forall out,
     Item20.main_locks (Some b) (Cxx.mkWorld gone out) =
       (Cxx.Normal (StdMemory.nullptr, StdMemory.nullptr),
        Cxx.mkWorld gone out)) /\
  (* the whole of main *)
  Cxx.console (snd (Item20.main what w)) =
    Cxx.console w +:+ "wpw has expired" +:+ Cxx.nl +:+ what +:+ Cxx.nl.
Proof.
  intros h b created observed gone.
  assert (Hfree : h !! b = None) by apply fresh_block_free.
  assert (Hgone : gone = Item20.dangling h) by reflexivity.
  assert (Hobs : StdMemory.weak_use_count (Some b) observed = 1%nat).
  { unfold StdMemory.weak_use_count, observed. now rewrite lookup_insert_eq. }
  assert (Hexp : StdMemory.weak_use_count (Some b) gone = 0%nat).
  { rewrite Hgone. apply dangling_use_count. }
  split; [exact Hfree |].
  split; [reflexivity |].
  split.
  { unfold StdMemory.weak_from_shared, created, observed.
    rewrite lookup_insert_eq. cbn [StdMemory.use_count StdMemory.weak_count
                                   StdMemory.object].
    now rewrite insert_insert_eq. }
  split; [exact Hobs |].
  split; [unfold StdMemory.expired; now rewrite Hobs |].
  split.
  { unfold StdMemory.assign_nullptr, Cxx.bind, StdMemory.release, observed, gone.
    rewrite lookup_insert_eq.
    cbn [StdMemory.use_count StdMemory.weak_count StdMemory.object
         StdMemory.settle Cxx.ret].
    now rewrite insert_insert_eq. }
  split; [exact Hexp |].
  split; [unfold StdMemory.expired; now rewrite Hexp |].
  split; [exact (main_setup_run w) |].
  split.
  { etransitivity; [exact (main_report_run h (Cxx.console w)) |].
    now rewrite append_assoc. }
  split; [intros out; exact (main_locks_run h out) |].
  now rewrite main_run.
Qed.

(** C2.  Constructing a [std::shared_ptr] from a [std::weak_ptr] throws
    [std::bad_weak_ptr] exactly when the weak pointer is expired; in
    item20's [main] the weak pointer is expired at that point, the
    handler writes the text of [what()] and a line feed, and [main]
    goes on to return 0. *)
Theorem item20_bad_weak_ptr_caught (what : string) :
  (forall (wp : StdMemory.weak_ptr) (h : Item20.heap),
      fst (StdMemory.shared_from_weak wp h) = Cxx.Throws Cxx.bad_weak_ptr
      <-> fst (StdMemory.expired wp h) = Cxx.Normal true) /\
  (forall w : Cxx.world Item20.heap,
      exists (wpw : StdMemory.weak_ptr) (w1 : Cxx.world Item20.heap),
        Item20.main_setup w = (Cxx.Normal (StdMemory.nullptr, wpw), w1) /\
        (forall out,
            Item20.main_try what wpw (Cxx.mkWorld (Cxx.store w1) out) =
              (Cxx.Normal tt,
               Cxx.mkWorld (Cxx.store w1) (out +:+ what +:+ Cxx.nl))) /\
        Item20.main what w =
          (Cxx.Normal 0,
           Cxx.mkWorld (Cxx.store w)
             (Cxx.console w +:+ "wpw has expired" +:+ Cxx.nl
                +:+ what +:+ Cxx.nl))).
Proof.
  split.
  - intros wp h. unfold StdMemory.shared_from_weak, StdMemory.expired. simpl.
    destruct (Nat.eqb (StdMemory.weak_use_count wp h) 0) eqn:E; simpl.
    + split; reflexivity.
    + destruct wp as [b|]; simpl.
      * split; discriminate.
      * simpl in E. discriminate.
  - intros w.
    exists (Some (fresh (dom (Cxx.store w)))).
    exists (Cxx.mkWorld (Item20.dangling (Cxx.store w)) (Cxx.console w)).
    split; [apply main_setup_run |].
    split; [| apply main_run].
    intros out. cbn [Cxx.store]. rewrite main_try_run.
    now rewrite append_assoc.
Qed.

(** ** item37: the worker loop of [doWork] *)

Section WorkerLoop.
Import Cxx Item37.

Variable filter : Z -> bool.

(** One turn of the loop: the test [i <= maxVal], the body, and
    [++i]. *)
Lemma worker_loop_step (maxVal i : Z) (goodVals : list Z) :
  worker_loop filter maxVal i goodVals =
    if i <=? maxVal then
      if i <? INT_MAX then
        worker_loop filter maxVal (i + 1)
                    (if filter i then goodVals ++ [i] else goodVals)
      else Undefined
    else Normal goodVals.
Proof.
  rewrite (worker_loop_equation_1 filter maxVal i goodVals).
  destruct (Z_le_gt_dec i maxVal) as [Hle | Hgt]; cbn.
  - rewrite (proj2 (Z.leb_le i maxVal) Hle).
    destruct (Z_lt_ge_dec i INT_MAX) as [Hlt | Hge]; cbn.
    + now rewrite (proj2 (Z.ltb_lt i INT_MAX) Hlt).
    + now rewrite (proj2 (Z.ltb_ge i INT_MAX) ltac:(lia)).
  - now rewrite (proj2 (Z.leb_gt i maxVal) ltac:(lia)).
Qed.

(** Below the largest [int], the loop entered at [i] appends the
    accepted values of [i .. maxVal], in order, and ends. *)
Lemma worker_loop_in_range (n : nat) :
  forall (maxVal i : Z) (goodVals : list Z),
    maxVal < INT_MAX ->
    Z.to_nat (maxVal + 1 - i) = n ->
    worker_loop filter maxVal i goodVals =
      Normal (goodVals ++ List.filter filter (seqZ i (maxVal + 1 - i))).
Proof.
  induction n as [|n IH]; intros maxVal i goodVals Hmax Hn;
    rewrite worker_loop_step.
  - rewrite (proj2 (Z.leb_gt i maxVal)) by lia.
    rewrite seqZ_nil by lia. cbn. now rewrite app_nil_r.
  - rewrite (proj2 (Z.leb_le i maxVal)) by lia.
    rewrite (proj2 (Z.ltb_lt i INT_MAX)) by lia.
    rewrite (IH maxVal (i + 1)) by lia.
    rewrite (seqZ_cons i (maxVal + 1 - i)) by lia.
    replace (Z.succ i) with (i + 1) by lia.
    replace (Z.pred (maxVal + 1 - i)) with (maxVal + 1 - (i + 1)) by lia.
    cbn [List.filter].
    destruct (filter i); [| reflexivity].
    now rewrite <- app_assoc.
Qed.

(** With [maxVal] the largest [int], the test [i <= maxVal] cannot
    fail, and the loop runs into the overflow of [++i]. *)
Lemma worker_loop_overflow (n : nat) :
  forall (i : Z) (goodVals : list Z),
    i <= INT_MAX ->
    Z.to_nat (INT_MAX - i) = n ->
    worker_loop filter INT_MAX i goodVals = Undefined.
Proof.
  induction n as [|n IH]; intros i goodVals Hi Hn;
    rewrite worker_loop_step;
    rewrite (proj2 (Z.leb_le i INT_MAX)) by lia.
  - now rewrite (proj2 (Z.ltb_ge i INT_MAX)) by lia.
  - rewrite (proj2 (Z.ltb_lt i INT_MAX)) by lia.
    apply IH; lia.
Qed.

(** The whole run of the worker below the largest [int]. *)
Lemma worker_below_INT_MAX (maxVal : Z) :
  maxVal < INT_MAX ->
  worker filter maxVal [] =
    Normal (List.filter filter (seqZ 0 (maxVal + 1))).
Proof.
  intros Hmax. unfold worker.
  rewrite (worker_loop_in_range (Z.to_nat (maxVal + 1 - 0)))
    by (reflexivity || lia).
  replace (maxVal + 1 - 0) with (maxVal + 1) by lia. reflexivity.
Qed.

(** The state in which [doWork] evaluates its [return]: the vector is
    [goodVals], and the worker thread [fresh (dom (threads s))] has
    been joined. *)
Lemma doWork_body_run (maxVal : Z) (goodVals : list Z)
      (s : StdThread.sys (list Z)) :
  worker filter maxVal [] = Normal goodVals ->
  doWork_body filter maxVal s =
    (Normal (true, mkThreadRAII join StdThread.no_thread),
     StdThread.mkSys goodVals
       (<[fresh (dom (StdThread.threads s)) := StdThread.Joined]>
          (StdThread.threads s))).
Proof.
  intros Hw.
  unfold doWork_body, bind, modify, StdThread.spawn, ThreadRAII_ctor,
    StdThread.thread_move, StdThread.thread_dtor, StdThread.join,
    StdThread.await, get, set, ret.
  cbn -[worker]. rewrite lookup_insert_eq. cbn -[worker]. rewrite Hw.
  now rewrite insert_insert_eq.
Qed.

Lemma doWork_body_undefined (maxVal : Z) (s : StdThread.sys (list Z)) :
  worker filter maxVal [] = Undefined ->
  fst (doWork_body filter maxVal s) = Undefined.
Proof.
  intros Hw.
  unfold doWork_body, bind, modify, StdThread.spawn, ThreadRAII_ctor,
    StdThread.thread_move, StdThread.thread_dtor, StdThread.join,
    StdThread.await, get, set, ret.
  cbn -[worker]. rewrite lookup_insert_eq. cbn -[worker]. now rewrite Hw.
Qed.

End WorkerLoop.

(** The accepted values of a run of consecutive integers are strictly
    increasing. *)
Lemma filter_seqZ_sorted (f : Z -> bool) (len : nat) :
  forall i : Z,
    StronglySorted Z.lt (List.filter f (seqZ i (Z.of_nat len))).
Proof.
  induction len as [|len IH]; intros i.
  - cbn. constructor.
  - rewrite seqZ_cons by lia.
    replace (Z.pred (Z.of_nat (S len))) with (Z.of_nat len) by lia.
    cbn [List.filter].
    destruct (f i); [| apply IH].
    constructor; [apply IH |].
    apply Forall_forall. intros x Hx.
    apply list_elem_of_In, filter_In in Hx as [Hx _].
    apply list_elem_of_In, elem_of_seqZ in Hx. lia.
Qed.

(** What [doWork] does for every [maxVal] from 0 up to, but not
    including, the largest [int]: it returns true; when [return] is
    evaluated the worker thread has been joined, the local [t] is no
    longer joinable, and [goodVals] holds exactly the values of
    [0 .. maxVal] that [filter] accepts, in increasing order. *)
Theorem doWork_below_INT_MAX (filter : Z -> bool) (maxVal : Z)
        (s : StdThread.sys (list Z)) :
  0 <= maxVal < Item37.INT_MAX ->
  let goodVals := List.filter filter (seqZ 0 (maxVal + 1)) in
  let worker_id := fresh (dom (StdThread.threads s)) in
  fst (Item37.doWork filter maxVal s) = Cxx.Normal true /\
  (exists t : Item37.ThreadRAII,
      Item37.doWork_body filter maxVal s =
        (Cxx.Normal (true, t),
         StdThread.mkSys goodVals
           (<[worker_id := StdThread.Joined]> (StdThread.threads s))) /\
      StdThread.joinable (Item37.get t) = false) /\
  (forall i : Z, In i goodVals <-> 0 <= i <= maxVal /\ filter i = true) /\
  StronglySorted Z.lt goodVals.
Proof.
  intros Hrange goodVals worker_id.
  assert (Hw : Item37.worker filter maxVal [] = Cxx.Normal goodVals)
    by (apply worker_below_INT_MAX; lia).
  split; [| split; [| split]].
  - unfold Item37.doWork, Cxx.bind.
    rewrite (doWork_body_run filter maxVal goodVals s Hw). reflexivity.
  - eexists. split; [apply (doWork_body_run filter maxVal goodVals s Hw) |].
    reflexivity.
  - intros i. subst goodVals. rewrite filter_In.
    rewrite <- list_elem_of_In, elem_of_seqZ.
    split; intros [H1 H2]; (split; [lia | exact H2]).
  - subst goodVals.
    replace (maxVal + 1) with (Z.of_nat (Z.to_nat (maxVal + 1))) by lia.
    apply filter_seqZ_sorted.
Qed.

Lemma doWork_below_INT_MAX_witness :
  0 <= 10 < Item37.INT_MAX /\
  fst (Item37.doWork Z.even 10 (StdThread.mkSys [] ∅)) = Cxx.Normal true.
Proof.
  split; [unfold Item37.INT_MAX; lia |].
  apply (doWork_below_INT_MAX Z.even 10 (StdThread.mkSys [] ∅)).
  unfold Item37.INT_MAX; lia.
Defined.

(** With the default argument, [doWork] returns true. *)
Lemma doWork_default_returns_true (filter : Z -> bool)
      (s : StdThread.sys (list Z)) :
  fst (Item37.doWork_default filter s) = Cxx.Normal true.
Proof.
  unfold Item37.doWork_default, Item37.doWork, Cxx.bind.
  rewrite (doWork_body_run filter Item37.tenMillion _ s
             (worker_below_INT_MAX filter Item37.tenMillion eq_refl)).
  reflexivity.
Qed.

(** C3 at [maxVal = INT_MAX].  For every filter and from every state,
    [doWork(filter, 2147483647)] does not return true: the loop
    condition [i <= maxVal] holds for every [int], so the worker reaches
    [++i] with [i] the largest [int], and the behaviour is undefined. *)
Theorem doWork_INT_MAX_undefined (filter : Z -> bool)
        (s : StdThread.sys (list Z)) :
  fst (Item37.doWork filter Item37.INT_MAX s) = Cxx.Undefined.
Proof.
  assert (Hw : Item37.worker filter Item37.INT_MAX [] = Cxx.Undefined).
  { unfold Item37.worker.
    apply (worker_loop_overflow filter (Z.to_nat (Item37.INT_MAX - 0)));
      [unfold Item37.INT_MAX; lia | reflexivity]. }
  pose proof (doWork_body_undefined filter Item37.INT_MAX s Hw) as Hb.
  unfold Item37.doWork, Cxx.bind.
  destruct (Item37.doWork_body filter Item37.INT_MAX s) as [o s'].
  cbn in Hb. subst o. reflexivity.
Qed.

(** ** item37: destruction of a [ThreadRAII] *)

Section Destruction.
Import Cxx StdThread.
Context {Mem : Type}.

(** A thread object that is not joinable is destroyed quietly. *)
Lemma thread_dtor_not_joinable (t : thread) (s : sys Mem) :
  joinable t = false -> thread_dtor t s = (Normal tt, s).
Proof. unfold thread_dtor. now intros ->. Qed.

(** Joining the thread [i] whose function [body] returns. *)
Lemma join_started (i : nat) (body : Mem -> outcome Mem) (m : Mem) (s : sys Mem) :
  threads s !! i = Some (Started body) ->
  body (mem s) = Normal m ->
  join (mkThread (Some i)) s =
    (Normal no_thread, mkSys m (<[i := Joined]> (threads s))).
Proof.
  intros Hi Hb. unfold join, await. cbn [handle]. now rewrite Hi, Hb.
Qed.

Lemma detach_started (i : nat) (body : Mem -> outcome Mem) (s : sys Mem) :
  threads s !! i = Some (Started body) ->
  detach (mkThread (Some i)) s =
    (Normal no_thread, mkSys (mem s) (<[i := Detached body]> (threads s))).
Proof.
  intros Hi. unfold detach. cbn [handle]. now rewrite Hi.
Qed.

End Destruction.

(** C4.  Destroying an [item37::ThreadRAII]: if the contained thread is
    joinable, the destructor joins it when [action] is [join] and
    detaches it otherwise; in every case the contained thread is not
    joinable when the destructor of the member runs, and the
    destruction ends normally, without [std::terminate].  The object is
    assumed to hold a thread that it really owns, and a thread that is
    joined is assumed to run its function to the end. *)
Theorem ThreadRAII_dtor_unjoinable_on_all_paths {Mem : Type}
        (r : Item37.ThreadRAII) (s : StdThread.sys Mem) :
  StdThread.represents s (Item37.t r) ->
  (Item37.action r = Item37.join -> StdThread.completes s (Item37.t r)) ->
  exists (r' : Item37.ThreadRAII) (s' : StdThread.sys Mem),
    Item37.dtor_body r s = (Cxx.Normal r', s') /\
    StdThread.joinable (Item37.t r') = false /\
    Item37.ThreadRAII_dtor r s = (Cxx.Normal tt, s') /\
    match StdThread.handle (Item37.t r), Item37.action r with
    | None, _ => s' = s
    | Some i, Item37.join =>
        exists body m,
          StdThread.threads s !! i = Some (StdThread.Started body) /\
          body (StdThread.mem s) = Cxx.Normal m /\
          s' = StdThread.mkSys m (<[i := StdThread.Joined]> (StdThread.threads s))
    | Some i, Item37.detach =>
        exists body,
          StdThread.threads s !! i = Some (StdThread.Started body) /\
          s' = StdThread.mkSys (StdThread.mem s)
                 (<[i := StdThread.Detached body]> (StdThread.threads s))
    end.
Proof.
  destruct r as [a [[i|]]]; intros Hrep Hcomp; cbn in Hrep, Hcomp.
  - destruct Hrep as [body Hbody].
    destruct a.
    + destruct (Hcomp eq_refl body Hbody) as [m Hm].
      exists (Item37.mkThreadRAII Item37.join StdThread.no_thread).
      exists (StdThread.mkSys m (<[i := StdThread.Joined]> (StdThread.threads s))).
      assert (Hd : Item37.dtor_body
                     (Item37.mkThreadRAII Item37.join (StdThread.mkThread (Some i))) s =
                   (Cxx.Normal (Item37.mkThreadRAII Item37.join StdThread.no_thread),
                    StdThread.mkSys m (<[i := StdThread.Joined]> (StdThread.threads s)))).
      { unfold Item37.dtor_body, Cxx.bind. cbn [Item37.t Item37.action StdThread.joinable StdThread.handle].
        now rewrite (join_started i body m s Hbody Hm). }
      split; [exact Hd |].
      split; [reflexivity |].
      split.
      * unfold Item37.ThreadRAII_dtor, StdThread.noexcept, Cxx.bind.
        now rewrite Hd.
      * cbn. exists body, m. auto.
    + exists (Item37.mkThreadRAII Item37.detach StdThread.no_thread).
      exists (StdThread.mkSys (StdThread.mem s)
                (<[i := StdThread.Detached body]> (StdThread.threads s))).
      assert (Hd : Item37.dtor_body
                     (Item37.mkThreadRAII Item37.detach (StdThread.mkThread (Some i))) s =
                   (Cxx.Normal (Item37.mkThreadRAII Item37.detach StdThread.no_thread),
                    StdThread.mkSys (StdThread.mem s)
                      (<[i := StdThread.Detached body]> (StdThread.threads s)))).
      { unfold Item37.dtor_body, Cxx.bind. cbn [Item37.t Item37.action StdThread.joinable StdThread.handle].
        now rewrite (detach_started i body s Hbody). }
      split; [exact Hd |].
      split; [reflexivity |].
      split.
      * unfold Item37.ThreadRAII_dtor, StdThread.noexcept, Cxx.bind.
        now rewrite Hd.
      * cbn. exists body. auto.
  - exists (Item37.mkThreadRAII a StdThread.no_thread), s.
    repeat match goal with |- _ /\ _ => split end; destruct a; reflexivity.
Qed.

Lemma ThreadRAII_dtor_unjoinable_witness :
  let r := Item37.mkThreadRAII Item37.join (StdThread.mkThread (Some 0%nat)) in
  let s := StdThread.mkSys 7 {[ 0%nat := StdThread.Started (fun m : Z => Cxx.Normal (m + 1)) ]} in
  StdThread.represents s (Item37.t r) /\
  (Item37.action r = Item37.join -> StdThread.completes s (Item37.t r)) /\
  exists r' s',
    Item37.dtor_body r s = (Cxx.Normal r', s') /\
    StdThread.joinable (Item37.t r') = false /\
    Item37.ThreadRAII_dtor r s = (Cxx.Normal tt, s').
Proof.
  intros r s.
  assert (Hrep : StdThread.represents s (Item37.t r)).
  { cbn. eexists. reflexivity. }
  assert (Hcomp : Item37.action r = Item37.join -> StdThread.completes s (Item37.t r)).
  { intros _. cbn. intros body Hbody.
    vm_compute in Hbody. injection Hbody as <-. eexists. reflexivity. }
  split; [exact Hrep |]. split; [exact Hcomp |].
  destruct (ThreadRAII_dtor_unjoinable_on_all_paths r s Hrep Hcomp)
    as (r' & s' & H1 & H2 & H3 & _).
  exists r', s'. auto.
Defined.

(** ** The copies of [ThreadRAII] *)

(** C5.  The definitions of [ThreadRAII] in item37.cxx, item39.cxx and
    item40.cxx denote the same type with the same behaviour: objects
    correspond one to one, and construction, [get], destruction, move
    construction and move assignment give corresponding results on
    corresponding inputs, from every state. *)
Theorem ThreadRAII_copies_agree {Mem : Type} :
  (* item39.cxx against item37.cxx *)
  ((forall r, Copies.from39 (Copies.to39 r) = r) /\
   (forall r, Copies.to39 (Copies.from39 r) = r) /\
   (forall t0 a,
       Item39.ThreadRAII_ctor t0 (Copies.action39 a) =
         (Copies.to39 (fst (Item37.ThreadRAII_ctor t0 a)),
          snd (Item37.ThreadRAII_ctor t0 a))) /\
   (forall r, Item39.get (Copies.to39 r) = Item37.get r) /\
   (forall r (s : StdThread.sys Mem),
       Item39.ThreadRAII_dtor (Copies.to39 r) s = Item37.ThreadRAII_dtor r s) /\
   (forall r,
       Item39.ThreadRAII_move_ctor (Copies.to39 r) =
         Copies.both Copies.to39 (Item37.ThreadRAII_move_ctor r)) /\
   (forall dst src (s : StdThread.sys Mem),
       Item39.ThreadRAII_move_assign (Copies.to39 dst) (Copies.to39 src) s =
         Copies.on_result (Copies.both Copies.to39)
                          (Item37.ThreadRAII_move_assign dst src s))) /\
  (* item40.cxx against item37.cxx *)
  ((forall r, Copies.from40 (Copies.to40 r) = r) /\
   (forall r, Copies.to40 (Copies.from40 r) = r) /\
   (forall t0 a,
       Item40.ThreadRAII_ctor t0 (Copies.action40 a) =
         (Copies.to40 (fst (Item37.ThreadRAII_ctor t0 a)),
          snd (Item37.ThreadRAII_ctor t0 a))) /\
   (forall r, Item40.get (Copies.to40 r) = Item37.get r) /\
   (forall r (s : StdThread.sys Mem),
       Item40.ThreadRAII_dtor (Copies.to40 r) s = Item37.ThreadRAII_dtor r s) /\
   (forall r,
       Item40.ThreadRAII_move_ctor (Copies.to40 r) =
         Copies.both Copies.to40 (Item37.ThreadRAII_move_ctor r)) /\
   (forall dst src (s : StdThread.sys Mem),
       Item40.ThreadRAII_move_assign (Copies.to40 dst) (Copies.to40 src) s =
         Copies.on_result (Copies.both Copies.to40)
                          (Item37.ThreadRAII_move_assign dst src s))).
Proof.
  split.
  - repeat match goal with |- _ /\ _ => split end.
    + intros [[] t]; reflexivity.
    + intros [[] t]; reflexivity.
    + intros t0 []; reflexivity.
    + intros r; reflexivity.
    + intros [[] [[i|]]] s;
        unfold Item39.ThreadRAII_dtor, Item37.ThreadRAII_dtor,
          StdThread.noexcept, Item39.dtor_body, Item37.dtor_body, Cxx.bind;
        cbn -[StdThread.join StdThread.detach];
        try reflexivity.
      * destruct (StdThread.join (StdThread.mkThread (Some i)) s) as [[] ?];
          reflexivity.
      * destruct (StdThread.detach (StdThread.mkThread (Some i)) s) as [[] ?];
          reflexivity.
    + intros [[] t]; reflexivity.
    + intros [a1 t1] [[] t2] s;
        unfold Item39.ThreadRAII_move_assign, Item37.ThreadRAII_move_assign,
          Cxx.bind; cbn;
        destruct (StdThread.thread_move_assign t1 t2 s) as [[] ?]; reflexivity.
  - repeat match goal with |- _ /\ _ => split end.
    + intros [[] t]; reflexivity.
    + intros [[] t]; reflexivity.
    + intros t0 []; reflexivity.
    + intros r; reflexivity.
    + intros [[] [[i|]]] s;
        unfold Item40.ThreadRAII_dtor, Item37.ThreadRAII_dtor,
          StdThread.noexcept, Item40.dtor_body, Item37.dtor_body, Cxx.bind;
        cbn -[StdThread.join StdThread.detach];
        try reflexivity.
      * destruct (StdThread.join (StdThread.mkThread (Some i)) s) as [[] ?];
          reflexivity.
      * destruct (StdThread.detach (StdThread.mkThread (Some i)) s) as [[] ?];
          reflexivity.
    + intros [[] t]; reflexivity.
    + intros [a1 t1] [[] t2] s;
        unfold Item40.ThreadRAII_move_assign, Item37.ThreadRAII_move_assign,
          Cxx.bind; cbn;
        destruct (StdThread.thread_move_assign t1 t2 s) as [[] ?]; reflexivity.
Qed.

(** ** item36: polling a future *)

Section Polling.
Import Item36.

(** One turn of the loop. *)
Lemma poll_step (fuel : nat) (fut : future) (e : env) :
  poll_until_ready (S fuel) fut e =
    if negb (future_status.eqb (fst (wait_for fut 100 e)) future_status.ready)
    then poll_until_ready fuel fut (snd (wait_for fut 100 e))
    else Some (snd (wait_for fut 100 e)).
Proof. reflexivity. Qed.

Lemma wait_for_ready (fin d : Z) (e : env) :
  fin <= now e + d ->
  wait_for (mkFuture launch.async fin) d e =
    (future_status.ready,
     mkEnv (Z.max (now e) fin) (polls e ++ [(d, future_status.ready)])).
Proof.
  intros H. unfold wait_for. cbn [policy finish].
  now rewrite (proj2 (Z.leb_le fin (now e + d)) H).
Qed.

Lemma wait_for_timeout (fin d : Z) (e : env) :
  now e + d < fin ->
  wait_for (mkFuture launch.async fin) d e =
    (future_status.timeout,
     mkEnv (now e + d) (polls e ++ [(d, future_status.timeout)])).
Proof.
  intros H. unfold wait_for. cbn [policy finish].
  now rewrite (proj2 (Z.leb_gt fin (now e + d)) H).
Qed.

(** Polling a task that runs on its own thread ends with [ready]
    after a number [k] of timeouts, as soon as the fuel covers the
    time that is left. *)
Lemma poll_async (n : nat) :
  forall (fin : Z) (e : env),
    fin - now e <= 100 * Z.of_nat (S n) ->
    exists k : nat,
      poll_until_ready (S n) (mkFuture launch.async fin) e =
        Some (mkEnv (Z.max (now e + 100 * Z.of_nat k) fin)
                    (polls e ++ repeat (100, future_status.timeout) k
                       ++ [(100, future_status.ready)])).
Proof.
  induction n as [|n IH]; intros fin e Hfin; rewrite poll_step.
  - exists O. rewrite wait_for_ready by lia.
    cbn. do 3 f_equal. lia.
  - destruct (Z_le_gt_dec fin (now e + 100)) as [Hle | Hgt].
    + exists O. rewrite wait_for_ready by lia.
      cbn. do 3 f_equal. lia.
    + rewrite wait_for_timeout by lia.
      cbn [fst snd future_status.eqb negb].
      destruct (IH fin (mkEnv (now e + 100)
                              (polls e ++ [(100, future_status.timeout)])))
        as [k Hk]; [cbn [now]; lia |].
      exists (S k). rewrite Hk. cbn [now polls repeat].
      rewrite <- app_assoc. cbn [app].
      do 2 f_equal. f_equal. lia.
Qed.

(** Polling a deferred task never ends: every call reports
    [deferred]. *)
Lemma poll_deferred (fuel : nat) :
  forall (fin : Z) (e : env),
    poll_until_ready fuel (mkFuture launch.deferred fin) e = None.
Proof.
  induction fuel as [|fuel IH]; intros fin e; [reflexivity |].
  rewrite poll_step. unfold wait_for at 1.
  cbn [policy fst future_status.eqb negb]. apply IH.
Qed.


End Polling.

(** C9.  item36's [main] copes with both choices that the default
    launch policy allows.  If the task is deferred, [wait_for(0s)]
    reports [deferred], the loop is not entered (the only [wait_for]
    call is the first one), and [main] returns 0.  If the task runs on
    its own thread, the loop polls [wait_for(100ms)] through some
    timeouts until [ready], and [main] returns 0.  The loop on its own
    would never end on a deferred task. *)
Theorem item36_main_terminates (choice : Item36.launch.t) (latency late : Z)
        (e : Item36.env) :
  (exists (fuel : nat) (e' : Item36.env),
      Item36.main fuel choice latency late e = Some (0, e') /\
      match choice with
      | Item36.launch.deferred =>
          Item36.main O choice latency late e = Some (0, e') /\
          Item36.polls e' =
            Item36.polls e ++ [(0, Item36.future_status.deferred)]
      | Item36.launch.async =>
          exists (first : Item36.future_status.t) (k : nat),
            first <> Item36.future_status.deferred /\
            Item36.polls e' =
              Item36.polls e ++ [(0, first)]
                ++ repeat (100, Item36.future_status.timeout) k
                ++ [(100, Item36.future_status.ready)]
      end) /\
  (forall (fuel : nat) (fin : Z) (e0 : Item36.env),
      Item36.poll_until_ready fuel
        (Item36.mkFuture Item36.launch.deferred fin) e0 = None).
Proof.
  split; [| intros fuel fin e0; apply poll_deferred].
  destruct choice.
  - (* the task runs on its own thread *)
    set (fin := Item36.f (Item36.now e + latency) late).
    set (e1 := snd (Item36.wait_for (Item36.mkFuture Item36.launch.async fin) 0 e)).
    destruct (poll_async (Z.to_nat (fin - Item36.now e1)) fin e1) as [k Hk]; [lia |].
    exists (S (Z.to_nat (fin - Item36.now e1))).
    eexists. split.
    + unfold Item36.main, Item36.std_async. fold fin.
      assert (Hst : Item36.future_status.eqb
                      (fst (Item36.wait_for (Item36.mkFuture Item36.launch.async fin) 0 e))
                      Item36.future_status.deferred = false).
      { cbn. destruct (fin <=? Item36.now e + 0); reflexivity. }
      rewrite Hst. fold e1. rewrite Hk. reflexivity.
    + exists (fst (Item36.wait_for (Item36.mkFuture Item36.launch.async fin) 0 e)), k.
      split.
      * cbn. destruct (fin <=? Item36.now e + 0); discriminate.
      * subst e1. cbn.
        destruct (fin <=? Item36.now e + 0); cbn;
          now rewrite <- app_assoc.
  - (* the task is deferred *)
    exists O. eexists. split; [reflexivity |].
    split; reflexivity.
Qed.

(** ** item18: the factory *)

(** C10.  For every argument pack and from every state of the free
    store, [makeInvestment] returns a non-null [std::unique_ptr] that
    owns a newly allocated [Stock]: the address was not in use before,
    and the only change to the free store is the new [Stock] object.
    No [Bond] and no [RealEstate] is ever created. *)
Theorem makeInvestment_returns_new_Stock {Ts : Type} (params : Ts)
        (h : Item18.heap) :
  exists p : nat,
    Item18.makeInvestment params h =
      (Cxx.Normal (Some p), <[p := Item18.Stock]> h) /\
    h !! p = None /\
    (<[p := Item18.Stock]> h) !! p = Some Item18.Stock.
Proof.
  exists (fresh (dom h)).
  split; [reflexivity |].
  split; [apply not_elem_of_dom, is_fresh | apply lookup_insert_eq].
Qed.

(** ** item39: the flag, the mutex and the condition variable *)

Section FlagProtocol.
Import Item39Main.

Lemma main_pc_eqb_eq (a b : main_pc) : main_pc_eqb a b = true -> a = b.
Proof. destruct a, b; (reflexivity || discriminate). Qed.

Lemma state_eqb_eq (a b : state) : state_eqb a b = true -> a = b.
Proof.
  destruct a as [am ad ar ah af ac], b as [bm bd br bh bf bc].
  unfold state_eqb. cbn [pc_main pc_detect pc_react m flag console].
  rewrite !andb_true_iff. intros [[[[[Hm Hd] Hr] Hh] Hf] Hc].
  apply main_pc_eqb_eq in Hm. apply Bool.eqb_prop in Hf.
  apply String.eqb_eq in Hc.
  assert (ad = bd) by (destruct ad, bd; (reflexivity || discriminate)).
  assert (ar = br) by (destruct ar, br; (reflexivity || discriminate)).
  assert (ah = bh).
  { destruct ah as [[| |]|], bh as [[| |]|]; (reflexivity || discriminate). }
  congruence.
Qed.

Lemma known_In (l : list state) (s : state) : known l s = true -> In s l.
Proof.
  unfold known. rewrite existsb_exists. intros (s' & Hin & Heq).
  apply state_eqb_eq in Heq. now subst s'.
Qed.

(** A list that is closed under the steps contains every state that a
    run from one of its states reaches. *)
Lemma closed_exec (l : list state) :
  closed l = true ->
  forall (sched : list action) (s s' : state),
    In s l -> exec sched s = Some s' -> In s' l.
Proof.
  intros Hclosed sched. induction sched as [|a sched IH]; intros s s' Hs.
  - cbn. now intros [= <-].
  - cbn. destruct (step a s) as [s1|] eqn:Hstep; [| discriminate].
    apply IH.
    unfold closed in Hclosed. rewrite forallb_forall in Hclosed.
    specialize (Hclosed s Hs). rewrite forallb_forall in Hclosed.
    apply known_In, Hclosed, list_elem_of_In.
    unfold successors. apply list_elem_of_omap. exists a. split; [| exact Hstep].
    apply list_elem_of_In. destruct a as [[| |]|]; cbn; tauto.
Qed.

(** Every state of every run from [init] has passed the check. *)
Lemma runs_checked (sched : list action) (s : state) :
  exec sched init = Some s -> checked s = true.
Proof.
  intros Hrun.
  assert (Hclosed : closed reachable = true) by (vm_compute; reflexivity).
  assert (Hinit : In init reachable) by (apply known_In; vm_compute; reflexivity).
  assert (Hall : forallb checked reachable = true) by (vm_compute; reflexivity).
  rewrite forallb_forall in Hall.
  apply Hall, (closed_exec reachable Hclosed sched init s Hinit Hrun).
Qed.




End FlagProtocol.

(** ** The example programs and standard output *)




(* ===================================================================== *)
(** * Further properties of the examples *)
(* ===================================================================== *)

(** ** item20: the caching factory [fastLoadWidget] *)

Section FastLoadWidget.
Import Cxx StdMemory Item20Cache.
Context {WidgetID : Type} `{Countable WidgetID}.

Abbreviation fresh_block s := (fresh (dom (blocks s))).
Abbreviation loaded := (mkCtrl 1 1 (Some Item20.Widget_default)).

(** A hit: the element observes a live object. *)
Lemma fastLoadWidget_hit (id : WidgetID) (b : nat) (c : ctrl Item20.Widget)
      (s : state WidgetID) :
  cache s !! id = Some (Some b) ->
  blocks s !! b = Some c ->
  (0 < use_count c)%nat ->
  fastLoadWidget id s =
    (Normal (Some b),
     mkState (<[b := mkCtrl (S (use_count c)) (weak_count c) (object c)]> (blocks s))
             (cache s)).
Proof.
  intros Hid Hb Huse.
  unfold fastLoadWidget, bind, cache_at, on_blocks, lock, weak_use_count, acquire.
  unfold weak_ptr, shared_ptr; cbv beta. rewrite Hid. cbn [blocks cache]. rewrite Hb.
  destruct (use_count c) as [|n] eqn:E; [lia |].
  reflexivity.
Qed.

(** A miss on a key that is not in the map, or whose element is empty. *)
Lemma fastLoadWidget_miss_new (id : WidgetID) (s : state WidgetID) :
  cache s !! id = None \/ cache s !! id = Some None ->
  fastLoadWidget id s =
    (Normal (Some (fresh_block s)),
     mkState (<[fresh_block s := loaded]> (blocks s))
             (<[id := Some (fresh_block s)]> (cache s))).
Proof.
  intros Hid.
  unfold fastLoadWidget, loadWidget, cache_assign, bind, cache_at, on_blocks,
    lock, weak_use_count, make_shared, weak_from_shared, weak_release, modify,
    ret, nullptr.
  unfold weak_ptr, shared_ptr; cbv beta.
  destruct Hid as [Hid | Hid]; rewrite Hid; cbn [blocks cache Nat.eqb].
  - rewrite lookup_insert_eq. cbn [blocks cache]. rewrite lookup_insert_eq.
    cbn [use_count weak_count object blocks cache].
    now rewrite !insert_insert_eq.
  - rewrite Hid. cbn [blocks cache]. rewrite lookup_insert_eq.
    cbn [use_count weak_count object blocks cache].
    now rewrite !insert_insert_eq.
Qed.

(** A miss on an element whose object has expired: a new Widget is
    loaded and the element lets go of the old control block. *)
Lemma fastLoadWidget_miss_expired (id : WidgetID) (b : nat) (c : ctrl Item20.Widget)
      (n : nat) (s : state WidgetID) :
  cache s !! id = Some (Some b) ->
  blocks s !! b = Some c ->
  use_count c = O ->
  weak_count c = S n ->
  fastLoadWidget id s =
    (Normal (Some (fresh_block s)),
     mkState (settle _ b (mkCtrl 0 n (object c))
                     (<[fresh_block s := loaded]> (blocks s)))
             (<[id := Some (fresh_block s)]> (cache s))).
Proof.
  intros Hid Hb Huse Hweak.
  assert (Hne : fresh_block s <> b).
  { intros Heq. pose proof (is_fresh (dom (blocks s))) as Hf.
    rewrite Heq in Hf. apply Hf, elem_of_dom. eauto. }
  unfold fastLoadWidget, loadWidget, cache_assign, bind, cache_at, on_blocks,
    lock, weak_use_count, make_shared, weak_from_shared, weak_release, modify,
    ret, nullptr.
  unfold weak_ptr, shared_ptr; cbv beta. rewrite Hid. cbn [blocks cache]. rewrite Hb, Huse. cbn [Nat.eqb blocks cache].
  rewrite Hid. cbn [blocks cache]. rewrite lookup_insert_eq.
  cbn [use_count weak_count object blocks cache].
  rewrite insert_insert_eq.
  rewrite lookup_insert_ne by exact Hne. rewrite Hb, Hweak, Huse.
  reflexivity.
Qed.


Lemma settle_lookup_ne (b b0 : nat) (c : ctrl Item20.Widget)
      (h : gmap nat (ctrl Item20.Widget)) :
  b0 <> b -> settle _ b c h !! b0 = h !! b0.
Proof.
  intros Hne. unfold settle.
  destruct (use_count c), (weak_count c);
    rewrite ?lookup_delete_ne, ?lookup_insert_ne by congruence; reflexivity.
Qed.

Lemma cached_block_not_fresh (id : WidgetID) (b : nat) (s : state WidgetID) :
  cache_ok s -> cache s !! id = Some (Some b) -> b <> fresh_block s.
Proof.
  intros [Hok _] Hid Heq. destruct (Hok id b Hid) as (c & Hc & _).
  pose proof (is_fresh (dom (blocks s))) as Hf.
  rewrite <- Heq in Hf. apply Hf, elem_of_dom. eauto.
Qed.

(** Loading into a fresh block keeps the cache in order, whatever
    happens to the block [old] that no other element observes. *)
Lemma cache_ok_reload (id : WidgetID) (s : state WidgetID)
      (h : gmap nat (ctrl Item20.Widget)) :
  cache_ok s ->
  h !! fresh_block s = Some loaded ->
  (forall id0 b0, id0 <> id -> cache s !! id0 = Some (Some b0) ->
                  h !! b0 = blocks s !! b0) ->
  cache_ok (mkState h (<[id := Some (fresh_block s)]> (cache s))).
Proof.
  intros Hok Hnew Hold. split; cbn [blocks cache].
  - intros id0 b0. rewrite lookup_insert.
    destruct (decide (id = id0)) as [<- | Hne].
    + intros [= <-]. exists loaded. split; [exact Hnew | cbn; lia].
    + intros Hid0. rewrite (Hold id0 b0) by congruence.
      exact (proj1 Hok id0 b0 Hid0).
  - intros id1 id2 b0. rewrite !lookup_insert.
    destruct (decide (id = id1)) as [<- | Hne1];
      destruct (decide (id = id2)) as [<- | Hne2]; try reflexivity.
    + intros [= <-] Hid2.
      now destruct (cached_block_not_fresh id2 _ s Hok Hid2).
    + intros Hid1 [= <-].
      now destruct (cached_block_not_fresh id1 _ s Hok Hid1).
    + apply (proj2 Hok).
Qed.

End FastLoadWidget.

(** What a call does, in every state in which the cache is in order. *)
Lemma fastLoadWidget_in_order `{Countable WidgetID}
        (id : WidgetID) (s : Item20Cache.state WidgetID) :
  Item20Cache.cache_ok s ->
  exists (b : nat) (s' : Item20Cache.state WidgetID),
    Item20Cache.fastLoadWidget id s = (Cxx.Normal (Some b), s') /\
    Item20Cache.cache_ok s' /\
    Item20Cache.cache s' !! id = Some (Some b) /\
    (exists c, Item20Cache.blocks s' !! b = Some c /\
               (0 < StdMemory.use_count c)%nat) /\
    (forall id', id' <> id ->
                 Item20Cache.cache s' !! id' = Item20Cache.cache s !! id').
Proof.
  intros Hok.
  destruct (Item20Cache.cache s !! id) as [[b|]|] eqn:Hid.
  - destruct (proj1 Hok id b Hid) as (c & Hc & Hweak).
    destruct (StdMemory.use_count c) as [|m] eqn:Huse.
    + (* expired: reload *)
      destruct (StdMemory.weak_count c) as [|n] eqn:Hw; [lia |].
      eexists _, _.
      split; [apply (fastLoadWidget_miss_expired id b c n s Hid Hc Huse Hw) |].
      assert (Hne : fresh (dom (Item20Cache.blocks s)) <> b)
        by (intros Heq; now apply (cached_block_not_fresh id b s Hok Hid)).
      assert (Hnew : StdMemory.settle _ b (StdMemory.mkCtrl 0 n (StdMemory.object c))
                       (<[fresh (dom (Item20Cache.blocks s)) :=
                            StdMemory.mkCtrl 1 1 (Some Item20.Widget_default)]>
                          (Item20Cache.blocks s))
                     !! fresh (dom (Item20Cache.blocks s))
                   = Some (StdMemory.mkCtrl 1 1 (Some Item20.Widget_default))).
      { rewrite settle_lookup_ne by exact Hne. apply lookup_insert_eq. }
      split; [| split; [| split]].
      * apply cache_ok_reload; [exact Hok | exact Hnew |].
        intros id0 b0 Hne0 Hid0.
        assert (b0 <> b) by (intros ->; apply Hne0; exact (proj2 Hok _ _ _ Hid0 Hid)).
        rewrite settle_lookup_ne by assumption.
        apply lookup_insert_ne. intros Heq.
        now apply (cached_block_not_fresh id0 b0 s Hok Hid0).
      * cbn. apply lookup_insert_eq.
      * eexists. split; [exact Hnew | cbn; lia].
      * intros id' Hne'. cbn. now apply lookup_insert_ne.
    + (* hit *)
      eexists _, _.
      split; [apply (fastLoadWidget_hit id b c s Hid Hc); lia |].
      split; [| split; [| split]].
      * split; cbn [Item20Cache.blocks Item20Cache.cache].
        -- intros id0 b0 Hid0. rewrite lookup_insert.
           destruct (decide (b = b0)) as [<- | Hneb].
           ++ eexists. split; [reflexivity | exact Hweak].
           ++ exact (proj1 Hok id0 b0 Hid0).
        -- apply (proj2 Hok).
      * exact Hid.
      * cbn. rewrite lookup_insert_eq. eexists. split; [reflexivity | cbn; lia].
      * reflexivity.
  - (* an empty element *)
    eexists _, _.
    split; [apply (fastLoadWidget_miss_new id s); now right |].
    split; [| split; [| split]].
    + apply cache_ok_reload; [exact Hok | apply lookup_insert_eq |].
      intros id0 b0 _ Hid0. apply lookup_insert_ne. intros Heq.
      now apply (cached_block_not_fresh id0 b0 s Hok Hid0).
    + cbn. apply lookup_insert_eq.
    + cbn. rewrite lookup_insert_eq. eexists. split; [reflexivity | cbn; lia].
    + intros id' Hne'. cbn. now apply lookup_insert_ne.
  - (* no element *)
    eexists _, _.
    split; [apply (fastLoadWidget_miss_new id s); now left |].
    split; [| split; [| split]].
    + apply cache_ok_reload; [exact Hok | apply lookup_insert_eq |].
      intros id0 b0 _ Hid0. apply lookup_insert_ne. intros Heq.
      now apply (cached_block_not_fresh id0 b0 s Hok Hid0).
    + cbn. apply lookup_insert_eq.
    + cbn. rewrite lookup_insert_eq. eexists. split; [reflexivity | cbn; lia].
    + intros id' Hne'. cbn. now apply lookup_insert_ne.
Qed.



(** X2.  Two calls in a row with the same [id] return the same object:
    the second call finds the Widget of the first one, which is still
    owned, allocates nothing and only adds an owner. *)
Theorem fastLoadWidget_second_call_hits `{Countable WidgetID}
        (id : WidgetID) (s : Item20Cache.state WidgetID) :
  Item20Cache.cache_ok s ->
  exists (b : nat) (s1 s2 : Item20Cache.state WidgetID)
         (c : StdMemory.ctrl Item20.Widget),
    Item20Cache.fastLoadWidget id s = (Cxx.Normal (Some b), s1) /\
    Item20Cache.fastLoadWidget id s1 = (Cxx.Normal (Some b), s2) /\
    Item20Cache.blocks s1 !! b = Some c /\
    Item20Cache.blocks s2 =
      <[b := StdMemory.mkCtrl (S (StdMemory.use_count c))
                              (StdMemory.weak_count c) (StdMemory.object c)]>
        (Item20Cache.blocks s1) /\
    Item20Cache.cache s2 = Item20Cache.cache s1 /\
    dom (Item20Cache.blocks s2) = dom (Item20Cache.blocks s1).
Proof.
  intros Hok.
  destruct (fastLoadWidget_in_order id s Hok)
    as (b & s1 & Hrun & _ & Hid & (c & Hc & Huse) & _).
  exists b, s1. eexists. exists c.
  split; [exact Hrun |].
  split; [apply (fastLoadWidget_hit id b c s1 Hid Hc Huse) |].
  split; [exact Hc |]. split; [reflexivity |]. split; [reflexivity |].
  cbn. apply dom_insert_lookup_L. eauto.
Qed.

Lemma fastLoadWidget_second_call_hits_witness :
  let s := Item20Cache.mkState (WidgetID := nat) ∅ ∅ in
  Item20Cache.cache_ok s /\
  exists b s1 s2,
    Item20Cache.fastLoadWidget 7%nat s = (Cxx.Normal (Some b), s1) /\
    Item20Cache.fastLoadWidget 7%nat s1 = (Cxx.Normal (Some b), s2).
Proof.
  intros s.
  assert (Hok : Item20Cache.cache_ok s).
  { split; intros *; cbn; rewrite lookup_empty; discriminate. }
  split; [exact Hok |].
  destruct (fastLoadWidget_second_call_hits 7%nat s Hok)
    as (b & s1 & s2 & c & H1 & H2 & _).
  exists b, s1, s2. split; assumption.
Defined.



(** ** item37: moving a [ThreadRAII], and the wrapper at work *)

(** X4.  Move construction hands the thread over: the new object holds
    the thread and the action of the source, the source is left without
    a thread, destroying the source afterwards changes nothing, and
    destroying the new object does what destroying the original would
    have done. *)
Theorem ThreadRAII_move_ctor_transfers {Mem : Type}
        (src : Item37.ThreadRAII) (s : StdThread.sys Mem) :
  Item37.get (fst (Item37.ThreadRAII_move_ctor src)) = Item37.get src /\
  Item37.action (fst (Item37.ThreadRAII_move_ctor src)) = Item37.action src /\
  StdThread.joinable (Item37.get (snd (Item37.ThreadRAII_move_ctor src))) = false /\
  Item37.ThreadRAII_dtor (snd (Item37.ThreadRAII_move_ctor src)) s = (Cxx.Normal tt, s) /\
  Item37.ThreadRAII_dtor (fst (Item37.ThreadRAII_move_ctor src)) s =
    Item37.ThreadRAII_dtor src s.
Proof.
  destruct src as [a [h]].
  repeat match goal with |- _ /\ _ => split end; reflexivity.
Qed.

(** X5.  Move assignment does not take the care that the destructor
    takes.  Assigning to a [ThreadRAII] whose thread is still joinable
    calls [std::terminate], whatever its [DtorAction]; assigning to one
    without a thread takes over thread and action of the source and
    leaves the source without a thread, so that destroying the source
    afterwards changes nothing. *)
Theorem ThreadRAII_move_assign_terminates_if_joinable {Mem : Type}
        (dst src : Item37.ThreadRAII) (s : StdThread.sys Mem) :
  Item37.ThreadRAII_move_assign dst src s =
    (if StdThread.joinable (Item37.get dst)
     then (Cxx.Terminated, s)
     else (Cxx.Normal (src, Item37.set src StdThread.no_thread), s)) /\
  Item37.ThreadRAII_dtor (Item37.set src StdThread.no_thread) s = (Cxx.Normal tt, s).
Proof.
  destruct dst as [a1 [[i|]]], src as [a2 [h2]]; split; reflexivity.
Qed.


(** ** item37: [doWork] on every [maxVal] below the largest [int] *)

(** X7.  For every [maxVal] below the largest [int], negative ones
    included, [doWork] returns true and leaves this state behind: the
    vector holds the accepted values of [0 .. maxVal] (none if [maxVal]
    is negative, and never more than [maxVal + 1]), the worker thread has
    been joined, and no other thread has been touched. *)
Theorem doWork_final_state (filter : Z -> bool) (maxVal : Z)
        (s : StdThread.sys (list Z)) :
  maxVal < Item37.INT_MAX ->
  let worker_id := fresh (dom (StdThread.threads s)) in
  let goodVals := List.filter filter (seqZ 0 (maxVal + 1)) in
  Item37.doWork filter maxVal s =
    (Cxx.Normal true,
     StdThread.mkSys goodVals
       (<[worker_id := StdThread.Joined]> (StdThread.threads s))) /\
  (length goodVals <= Z.to_nat (maxVal + 1))%nat /\
  (forall j, j <> worker_id ->
     (<[worker_id := StdThread.Joined]> (StdThread.threads s)) !! j =
       StdThread.threads s !! j).
Proof.
  intros Hmax worker_id goodVals.
  split; [| split].
  - unfold Item37.doWork, Cxx.bind.
    rewrite (doWork_body_run filter maxVal goodVals s
               (worker_below_INT_MAX filter maxVal Hmax)).
    reflexivity.
  - subst goodVals.
    etransitivity; [apply List.filter_length_le |].
    now rewrite length_seqZ.
  - intros j Hj. apply lookup_insert_ne. congruence.
Qed.

Lemma doWork_final_state_witness :
  -3 < Item37.INT_MAX /\
  Item37.doWork Z.even (-3) (StdThread.mkSys [5] ∅) =
    (Cxx.Normal true,
     StdThread.mkSys []
       (<[fresh (dom (∅ : gmap nat (StdThread.execution (list Z)))) :=
            StdThread.Joined]> ∅)).
Proof.
  split; [reflexivity |].
  apply (doWork_final_state Z.even (-3) (StdThread.mkSys [5] ∅)).
  reflexivity.
Defined.

(** ** item36: [reallyAsync], and how long [main] takes *)

Section Timing.
Import Item36.

(** When polling ends, the clock stands at the time the task returned,
    or where it stood if that was later. *)
Lemma poll_until_ready_now (fuel : nat) :
  forall (fin : Z) (e e' : env),
    poll_until_ready fuel (mkFuture launch.async fin) e = Some e' ->
    now e' = Z.max (now e) fin.
Proof.
  induction fuel as [|fuel IH]; intros fin e e'; [discriminate |].
  rewrite poll_step.
  destruct (Z_le_gt_dec fin (now e + 100)) as [Hle | Hgt].
  - rewrite wait_for_ready by lia. cbn. intros [= <-]. reflexivity.
  - rewrite wait_for_timeout by lia. cbn [fst snd future_status.eqb negb].
    intros Hrec. apply IH in Hrec. cbn [now] in Hrec. lia.
Qed.

End Timing.

(** X8.  A future obtained from [reallyAsync] is never deferred, so
    polling it always ends: some number of fuel is enough, [wait_for]
    reports a few timeouts and then [ready], and when the loop ends the
    task has returned. *)
Theorem reallyAsync_polling_ends (latency late : Z) (e : Item36.env) :
  let fut := Item36Async.reallyAsync latency late e in
  (forall (d : Z) (e0 : Item36.env),
      fst (Item36.wait_for fut d e0) <> Item36.future_status.deferred) /\
  exists (fuel k : nat) (e' : Item36.env),
    Item36.poll_until_ready fuel fut e = Some e' /\
    Item36.polls e' =
      Item36.polls e ++ repeat (100, Item36.future_status.timeout) k
        ++ [(100, Item36.future_status.ready)] /\
    Item36.finish fut <= Item36.now e'.
Proof.
  intros fut. split.
  - intros d e0. unfold fut, Item36Async.reallyAsync, Item36.std_async, Item36.wait_for.
    cbn [Item36.policy Item36.finish].
    destruct (_ <=? _); discriminate.
  - unfold fut, Item36Async.reallyAsync, Item36.std_async.
    set (fin := Item36.f (Item36.now e + latency) late).
    destruct (poll_async (Z.to_nat (fin - Item36.now e)) fin e) as [k Hk]; [lia |].
    exists (S (Z.to_nat (fin - Item36.now e))), k. eexists.
    split; [exact Hk |]. split; [reflexivity |].
    cbn [Item36.finish Item36.now]. lia.
Qed.

(** X9.  How long item36's [main] takes.  Whenever [main] returns, it
    returns 0.  If the task was deferred, no time has passed and the
    task has not run.  If the task runs on its own thread, [main] does
    not return before the task has: the clock stands at the time [f]
    returned (one second after it started, or later), or at the starting
    time of [main] if that was later. *)
Theorem item36_main_duration (fuel : nat) (choice : Item36.launch.t)
        (latency late : Z) (e : Item36.env) (r : Z) (e' : Item36.env) :
  Item36.main fuel choice latency late e = Some (r, e') ->
  r = 0 /\
  Item36.now e' =
    match choice with
    | Item36.launch.deferred => Item36.now e
    | Item36.launch.async =>
        Z.max (Item36.now e) (Item36.now e + latency + 1000 + late)
    end.
Proof.
  unfold Item36.main, Item36.std_async, Item36.f.
  set (fin := Item36.now e + latency + 1000 + late).
  destruct choice.
  - destruct (Z_le_gt_dec fin (Item36.now e + 0)) as [Hle | Hgt].
    + rewrite wait_for_ready by lia. cbn [fst snd Item36.future_status.eqb].
      destruct (Item36.poll_until_ready fuel _ _) as [e1|] eqn:Hp; [| discriminate].
      intros [= <- <-]. split; [reflexivity |].
      apply poll_until_ready_now in Hp. cbn in *. lia.
    + rewrite wait_for_timeout by lia. cbn [fst snd Item36.future_status.eqb].
      destruct (Item36.poll_until_ready fuel _ _) as [e1|] eqn:Hp; [| discriminate].
      intros [= <- <-]. split; [reflexivity |].
      apply poll_until_ready_now in Hp. cbn in *. lia.
  - cbn. intros [= <- <-]. split; reflexivity.
Qed.

Lemma item36_main_duration_witness :
  Item36.main 20 Item36.launch.async 5 3 (Item36.mkEnv 0 []) <> None /\
  exists e', Item36.main 20 Item36.launch.async 5 3 (Item36.mkEnv 0 []) = Some (0, e') /\
             Item36.now e' = 1008.
Proof.
  destruct (Item36.main 20 Item36.launch.async 5 3 (Item36.mkEnv 0 []))
    as [[r e']|] eqn:Hrun; [| vm_compute in Hrun; discriminate].
  split; [discriminate |].
  destruct (item36_main_duration _ _ _ _ _ _ _ Hrun) as [-> Hnow].
  exists e'. split; [reflexivity | exact Hnow].
Defined.

(** ** item15: [pow] *)

Section Pow.
Import Cxx Item15Pow.

Lemma pow_loop_step (base exp i result : Z) :
  pow_loop base exp i result =
    if Z_lt_dec i exp then
      if in_int (result * base)
      then pow_loop base exp (i + 1) (result * base)
      else Undefined
    else Normal result.
Proof.
  rewrite (pow_loop_equation_1 base exp i result).
  destruct (Z_lt_dec i exp); reflexivity.
Qed.

(** The loop multiplies [result] by [base] once for every [i] that is
    left, as long as the products are values of [int]. *)
Lemma pow_loop_power (n : nat) :
  forall base exp i result : Z,
    exp - i = Z.of_nat n ->
    (forall k, 0 < k <= exp - i -> in_int (result * base ^ k) = true) ->
    pow_loop base exp i result = Normal (result * base ^ (exp - i)).
Proof.
  induction n as [|n IH]; intros base exp i result Hn Hrange; rewrite pow_loop_step.
  - destruct (Z_lt_dec i exp); [lia |].
    replace (exp - i) with 0 by lia. now rewrite Z.pow_0_r, Z.mul_1_r.
  - destruct (Z_lt_dec i exp); [| lia].
    assert (H1 : in_int (result * base) = true).
    { specialize (Hrange 1 ltac:(lia)). now rewrite Z.pow_1_r in Hrange. }
    rewrite H1. rewrite (IH base exp (i + 1) (result * base)).
    + f_equal. replace (exp - i) with (Z.succ (exp - (i + 1))) by lia.
      rewrite Z.pow_succ_r by lia. ring.
    + lia.
    + intros k Hk. specialize (Hrange (Z.succ k) ltac:(lia)).
      rewrite Z.pow_succ_r in Hrange by lia.
      now replace (result * base * base ^ k) with (result * (base * base ^ k)) by ring.
Qed.

(** The first product that is not a value of [int] ends the loop. *)
Lemma pow_loop_overflow (n : nat) :
  forall base exp i result : Z,
    Z.of_nat n < exp - i ->
    (forall k, 0 < k <= Z.of_nat n -> in_int (result * base ^ k) = true) ->
    in_int (result * base ^ (Z.of_nat n + 1)) = false ->
    pow_loop base exp i result = Undefined.
Proof.
  induction n as [|n IH]; intros base exp i result Hn Hrange Hover; rewrite pow_loop_step.
  - destruct (Z_lt_dec i exp); [| lia].
    cbn in Hover. rewrite Z.pow_1_r in Hover. now rewrite Hover.
  - destruct (Z_lt_dec i exp); [| lia].
    assert (H1 : in_int (result * base) = true).
    { specialize (Hrange 1 ltac:(lia)). now rewrite Z.pow_1_r in Hrange. }
    rewrite H1. apply IH.
    + lia.
    + intros k Hk. specialize (Hrange (Z.succ k) ltac:(lia)).
      rewrite Z.pow_succ_r in Hrange by lia.
      now replace (result * base * base ^ k) with (result * (base * base ^ k)) by ring.
    + replace (Z.of_nat (S n) + 1) with (Z.succ (Z.of_nat n + 1)) in Hover by lia.
      rewrite Z.pow_succ_r in Hover by lia.
      now replace (result * base * base ^ (Z.of_nat n + 1))
        with (result * (base * base ^ (Z.of_nat n + 1))) by ring.
Qed.

End Pow.

(** X10.  [pow(base, exp)] is [base] to the power [exp] whenever the
    powers up to [exp] are values of [int]; a negative [exp] counts as
    0.  It has undefined behaviour exactly when some power up to [exp]
    is not a value of [int]. *)
Theorem pow_is_power (base exp : Z) :
  (exp <= 0 -> Item15Pow.pow base exp = Cxx.Normal 1) /\
  ((forall k, 0 < k <= exp -> Item15Pow.in_int (base ^ k) = true) ->
   Item15Pow.pow base exp = Cxx.Normal (base ^ Z.max 0 exp)) /\
  (forall k, 0 < k <= exp ->
     (forall j, 0 < j < k -> Item15Pow.in_int (base ^ j) = true) ->
     Item15Pow.in_int (base ^ k) = false ->
     Item15Pow.pow base exp = Cxx.Undefined).
Proof.
  split; [| split].
  - intros Hexp. unfold Item15Pow.pow. rewrite pow_loop_step.
    destruct (Z_lt_dec 0 exp); [lia | reflexivity].
  - intros Hrange. unfold Item15Pow.pow.
    destruct (Z_le_gt_dec exp 0) as [Hle | Hgt].
    + rewrite pow_loop_step. destruct (Z_lt_dec 0 exp); [lia |].
      rewrite Z.max_l by lia. reflexivity.
    + rewrite (pow_loop_power (Z.to_nat exp) base exp 0 1).
      * rewrite Z.max_r by lia. f_equal. rewrite Z.sub_0_r. ring.
      * lia.
      * intros k Hk. rewrite Z.mul_1_l. apply Hrange. lia.
  - intros k Hk Hbelow Hover. unfold Item15Pow.pow.
    apply (pow_loop_overflow (Z.to_nat (k - 1))).
    + lia.
    + intros j Hj. rewrite Z.mul_1_l. apply Hbelow. lia.
    + rewrite Z.mul_1_l. now replace (Z.of_nat (Z.to_nat (k - 1)) + 1) with k by lia.
Qed.

(** [std::array<int, pow(3, numConds)> results;] has 243 elements. *)
Lemma pow_is_power_witness :
  Item15Pow.pow 3 Item15Pow.numConds = Cxx.Normal 243.
Proof.
  apply (proj1 (proj2 (pow_is_power 3 Item15Pow.numConds))).
  intros k Hk. unfold Item15Pow.numConds in Hk.
  assert (Hcases : k = 1 \/ k = 2 \/ k = 3 \/ k = 4 \/ k = 5) by lia.
  destruct Hcases as [-> | [-> | [-> | [-> | ->]]]]; reflexivity.
Defined.

(** ** item13: [findAndInsert] *)

Section FindAndInsert.
Import Cxx Item13.

(** [std::find] stays inside the range. *)
Lemma find_le_length (l : list Z) (x : Z) : (find l x <= length l)%nat.
Proof.
  induction l as [|y l IH]; cbn; [lia |].
  destruct (y =? x); cbn; lia.
Qed.

(** Nothing in front of the position that [std::find] returns is
    [x], and the element there, if any, is [x]. *)
Lemma find_split (l : list Z) (x : Z) :
  ~ In x (take (find l x) l) /\
  (drop (find l x) l = [] \/ exists rest, drop (find l x) l = x :: rest).
Proof.
  induction l as [|y l [IHpre IHpost]]; cbn.
  - split; [tauto | now left].
  - destruct (Z.eqb_spec y x) as [-> | Hne]; cbn.
    + split; [tauto | right; now exists l].
    + split; [intros [Heq | Hin]; [congruence | tauto] | exact IHpost].
Qed.

End FindAndInsert.

(** X11.  [findAndInsert] never reaches undefined behaviour: the
    iterator it passes to [insert] comes from [std::find] on the same
    container.  The result is the container with [insertVal] put in
    front of the first [targetVal], or at the end if [targetVal] does
    not occur; nothing else changes. *)
Theorem findAndInsert_before_first (container : list Z) (targetVal insertVal : Z) :
  exists pre post : list Z,
    container = pre ++ post /\
    Item13Generic.findAndInsert container targetVal insertVal
      = Cxx.Normal (pre ++ insertVal :: post) /\
    ~ In targetVal pre /\
    (post = [] \/ exists rest, post = targetVal :: rest).
Proof.
  exists (take (Item13.find container targetVal) container),
         (drop (Item13.find container targetVal) container).
  split; [now rewrite take_drop |].
  split.
  - unfold Item13Generic.findAndInsert, Item13.insert_at.
    now rewrite (proj2 (Nat.leb_le _ _) (find_le_length container targetVal)).
  - apply find_split.
Qed.

(** ** item39: what the mutex and the condition variable achieve *)

Section FlagScheduler.
Import Item39Main.

(** The scheduler stops where no thread can take a step. *)
Lemma finish_stuck (fuel : nat) (s : state) :
  step (run t_main) s = None -> step (run th3) s = None ->
  step (run th4) s = None ->
  finish (S fuel) s = ([], s).
Proof. intros H1 H2 H3. cbn [finish]. now rewrite H1, H2, H3. Qed.

End FlagScheduler.

(** X12.  In every state of every run of item39's threads, with or
    without wake-ups that nobody asked for, [detectFlag] and
    [reactFlag] are never both inside the region that the mutex
    protects, and the program is not stuck: [main] has returned, or
    one of the three threads can take its next step (the notification
    is never lost). *)
Theorem flag_protocol_safe (sched : list Item39Main.action) (s : Item39Main.state) :
  Item39Main.exec sched Item39Main.init = Some s ->
  Item39Main.detect_holds s && Item39Main.react_holds s = false /\
  (Item39Main.pc_main s = Item39Main.M_returned \/
   exists (t : Item39Main.thread_id) (s' : Item39Main.state),
     Item39Main.step (Item39Main.run t) s = Some s').
Proof.
  intros Hrun. apply runs_checked in Hrun. unfold Item39Main.checked in Hrun.
  rewrite !andb_true_iff in Hrun. destruct Hrun as [[Hexcl _] [Hfin _]].
  split; [now apply negb_true_iff in Hexcl |].
  apply main_pc_eqb_eq in Hfin.
  destruct (Item39Main.step (Item39Main.run Item39Main.t_main) s) as [s1|] eqn:H1;
    [right; eauto |].
  destruct (Item39Main.step (Item39Main.run Item39Main.th3) s) as [s2|] eqn:H2;
    [right; eauto |].
  destruct (Item39Main.step (Item39Main.run Item39Main.th4) s) as [s3|] eqn:H3;
    [right; eauto |].
  left. now rewrite (finish_stuck 15 s H1 H2 H3) in Hfin.
Qed.

Lemma flag_protocol_safe_witness :
  let sched :=
    [Item39Main.run Item39Main.t_main; Item39Main.run Item39Main.t_main;
     Item39Main.run Item39Main.th4; Item39Main.run Item39Main.th4;
     Item39Main.spurious_wakeup; Item39Main.run Item39Main.th3] in
  exists s : Item39Main.state,
    Item39Main.exec sched Item39Main.init = Some s /\
    Item39Main.detect_holds s && Item39Main.react_holds s = false.
Proof.
  intros sched. eexists. split; [vm_compute; reflexivity |].
  apply (flag_protocol_safe sched). reflexivity.
Defined.
